(** * facebook-following-scraper: a shallow embedding and its properties

    The development follows the layout of the repository:

    - [PyStr]      the Python [str] operations the sources call;
    - [Regex]      a backtracking matcher for the [re] patterns of the sources;
    - [utils_time] [src/extractors/utils_time.py];
    - [facebook_parser] [src/extractors/facebook_parser.py];
    - [exporters]  [src/outputs/exporters.py];
    - [runner]     [src/runner.py].

    Strings are byte strings: the character classes ([\d], [\s], [\w],
    [str.lower], [str.strip]) are the ASCII ones, bytes above 127 are
    neither digits, spaces nor letters. *)

From Stdlib Require Import ZArith String Ascii List Lia.
From stdpp Require Import base strings list gmap sorting.

#[global] Set Warnings "-clear-no-such-hyp".

Open Scope string_scope.
Open Scope list_scope.
Open Scope Z_scope.

(** ** Exceptions and fallible results *)

(** The exceptions the modelled code can meet. The last two are
    [BaseException]s that are not [Exception]s: [except Exception] does not
    catch them. *)
Inductive pyexc : Type :=
| ValueError
| OverflowError
| RequestException (msg : string)
| OtherException (name : string)
| KeyboardInterrupt
| SystemExit.

Definition is_Exception (e : pyexc) : bool :=
  match e with
  | KeyboardInterrupt | SystemExit => false
  | _ => true
  end.

Inductive result (A : Type) : Type :=
| Ok (a : A)
| Raise (e : pyexc).
Arguments Ok {A} a.
Arguments Raise {A} e.

#[global] Instance result_ret : MRet result := fun A a => Ok a.
#[global] Instance result_bind : MBind result := fun A B f m =>
  match m with
  | Ok a => f a
  | Raise e => Raise e
  end.

Definition is_Ok {A} (r : result A) : bool :=
  match r with Ok _ => true | Raise _ => false end.

(** ** Python [str] operations *)
Module PyStr.

Definition in_range (lo hi c : ascii) : bool :=
  (Ascii.leb lo c && Ascii.leb c hi)%char.

Definition is_digit (c : ascii) : bool := in_range "0" "9" c.
Definition is_upper (c : ascii) : bool := in_range "A" "Z" c.
Definition is_lower (c : ascii) : bool := in_range "a" "z" c.

(** [\w]: letters, digits and the underscore. *)
Definition is_word (c : ascii) : bool :=
  is_digit c || is_upper c || is_lower c || Ascii.eqb c "_".

(** [str.isspace] and [\s] on ASCII: TAB..CR, FS..US and the space. *)
Definition is_space (c : ascii) : bool :=
  let n := N_of_ascii c in
  ((9 <=? n) && (n <=? 13) || (28 <=? n) && (n <=? 32))%N.

Definition lower_char (c : ascii) : ascii :=
  if is_upper c then ascii_of_N (N_of_ascii c + 32) else c.

(** [s.lower()] *)
Fixpoint lower (s : string) : string :=
  match s with
  | EmptyString => EmptyString
  | String c s' => String (lower_char c) (lower s')
  end.

(** [s.lstrip(chars)], the characters given as a predicate. *)
Fixpoint lstrip_by (p : ascii -> bool) (s : string) : string :=
  match s with
  | EmptyString => EmptyString
  | String c s' => if p c then lstrip_by p s' else s
  end.

(** [s.rstrip(chars)] *)
Definition rstrip_by (p : ascii -> bool) (s : string) : string :=
  String.rev (lstrip_by p (String.rev s)).

(** [s.strip()] *)
Definition strip (s : string) : string := rstrip_by is_space (lstrip_by is_space s).

(** [s.lstrip("/")] and [s.rstrip("/")], [s.lstrip(".")] *)
Definition lstrip_slash : string -> string := lstrip_by (Ascii.eqb "/").
Definition rstrip_slash : string -> string := rstrip_by (Ascii.eqb "/").
Definition lstrip_dot : string -> string := lstrip_by (Ascii.eqb ".").

(** [s.startswith(p)] *)
Definition startswith (s p : string) : bool := String.prefix p s.

(** [needle in hay] *)
Fixpoint contains (needle hay : string) : bool :=
  String.prefix needle hay ||
  match hay with
  | EmptyString => false
  | String _ hay' => contains needle hay'
  end.

(** [s.split(sep)] for a one-character separator: never the empty list. *)
Fixpoint split (sep : ascii) (s : string) : list string :=
  match s with
  | EmptyString => [EmptyString]
  | String c s' =>
      if Ascii.eqb c sep then EmptyString :: split sep s'
      else match split sep s' with
           | w :: ws => String c w :: ws
           | [] => [String c EmptyString]
           end
  end.

(** Truthiness of a string: [not s] is [is_empty s]. *)
Definition is_empty (s : string) : bool :=
  match s with EmptyString => true | _ => false end.

(** [int(s)] on a string of decimal digits. *)
Definition digit_value (c : ascii) : Z := Z.of_N (N_of_ascii c) - 48.

Fixpoint int_acc (acc : Z) (s : string) : Z :=
  match s with
  | EmptyString => acc
  | String c s' => int_acc (10 * acc + digit_value c) s'
  end.

Definition int (s : string) : Z := int_acc 0 s.

(** [str(n)] for an integer. *)
Definition digit_char (d : Z) : ascii := ascii_of_N (Z.to_N d + 48).

Fixpoint str_pos (fuel : nat) (n : Z) (acc : string) : string :=
  match fuel with
  | O => acc
  | S fuel' =>
      let acc' := String (digit_char (n mod 10)) acc in
      if n <? 10 then acc' else str_pos fuel' (n / 10) acc'
  end.

Definition str_int (n : Z) : string :=
  if n <? 0 then String "-" (str_pos (S (Z.to_nat (Z.log2 (- n)))) (- n) EmptyString)
  else str_pos (S (Z.to_nat (Z.log2 n))) n EmptyString.

End PyStr.

(** ** Regular expressions

    The patterns of the sources use literals, character classes, greedy
    repetition of a character class, alternation, groups and [\b]. The
    matcher is the backtracking one of [re]: alternatives are tried from
    left to right, a greedy repetition takes as much as it can and gives
    back one character at a time, and the first success is the match. *)
Module Regex.
Import PyStr.

Inductive regex : Type :=
| Eps
| Chr (p : ascii -> bool)
| Cat (r1 r2 : regex)
| Alt (r1 r2 : regex)
| Star (p : ascii -> bool)
| Group (name : string) (r : regex)
| WordB.

(** The groups of a match, the most recently closed first. *)
Definition captures : Type := list (string * string).

(** [m.group(name)] *)
Fixpoint group (name : string) (caps : captures) : string :=
  match caps with
  | [] => EmptyString
  | (n, v) :: caps' => if String.eqb n name then v else group name caps'
  end.

(** The text between two positions of the subject, each given by what is
    left of the subject there. *)
Definition consumed (before after : string) : string :=
  String.substring 0 (String.length before - String.length after) before.

Definition at_boundary (prev : option ascii) (s : string) : bool :=
  let left := match prev with Some c => is_word c | None => false end in
  let right := match s with String c _ => is_word c | EmptyString => false end in
  xorb left right.

Section Run.
Context {A : Type}.

(** A position is the character before it and the rest of the subject. *)
Definition cont : Type := option ascii -> string -> captures -> option A.

Fixpoint star (p : ascii -> bool) (prev : option ascii) (s : string)
    (caps : captures) (k : cont) : option A :=
  match s with
  | String c s' =>
      if p c then
        match star p (Some c) s' caps k with
        | Some r => Some r
        | None => k prev s caps
        end
      else k prev s caps
  | EmptyString => k prev s caps
  end.

Fixpoint run (r : regex) (prev : option ascii) (s : string)
    (caps : captures) (k : cont) : option A :=
  match r with
  | Eps => k prev s caps
  | Chr p =>
      match s with
      | String c s' => if p c then k (Some c) s' caps else None
      | EmptyString => None
      end
  | Cat r1 r2 => run r1 prev s caps (fun prev' s' caps' => run r2 prev' s' caps' k)
  | Alt r1 r2 =>
      match run r1 prev s caps k with
      | Some a => Some a
      | None => run r2 prev s caps k
      end
  | Star p => star p prev s caps k
  | Group name r1 =>
      run r1 prev s caps
        (fun prev' s' caps' => k prev' s' ((name, consumed s s') :: caps'))
  | WordB => if at_boundary prev s then k prev s caps else None
  end.
End Run.

(** [pattern.match(s)]: the groups and the unmatched rest. *)
Definition rematch (r : regex) (s : string) : option (captures * string) :=
  run r None s [] (fun _ rest caps => Some (caps, rest)).

(** [re.fullmatch(pattern, s)] *)
Definition fullmatch (r : regex) (s : string) : option captures :=
  run r None s [] (fun _ rest caps => if is_empty rest then Some caps else None).

Fixpoint search_from (r : regex) (prev : option ascii) (s : string) : option captures :=
  match run r prev s [] (fun _ _ caps => Some caps) with
  | Some caps => Some caps
  | None =>
      match s with
      | String c s' => search_from r (Some c) s'
      | EmptyString => None
      end
  end.

(** [re.search(pattern, s)]: the leftmost match. *)
Definition search (r : regex) (s : string) : option captures := search_from r None s.

(** Pattern syntax. [ilit] is a literal of a pattern compiled with
    [re.IGNORECASE], [lit] a literal of any other pattern. *)
Definition chr (c : ascii) : regex := Chr (Ascii.eqb c).
Definition ichr (c : ascii) : regex := Chr (fun x => Ascii.eqb (lower_char x) (lower_char c)).
Definition cls (lo hi : ascii) : regex := Chr (in_range lo hi).
Definition digit : regex := Chr is_digit.
Definition plus (p : ascii -> bool) : regex := Cat (Chr p) (Star p).
Definition opt (r : regex) : regex := Alt r Eps.

Fixpoint lit (s : string) : regex :=
  match s with
  | EmptyString => Eps
  | String c s' => Cat (chr c) (lit s')
  end.

Fixpoint ilit (s : string) : regex :=
  match s with
  | EmptyString => Eps
  | String c s' => Cat (ichr c) (ilit s')
  end.

Fixpoint alts (rs : list regex) : regex :=
  match rs with
  | [] => Chr (fun _ => false)
  | [r] => r
  | r :: rs' => Alt r (alts rs')
  end.

Fixpoint cats (rs : list regex) : regex :=
  match rs with
  | [] => Eps
  | r :: rs' => Cat r (cats rs')
  end.

End Regex.

(** ** [src/extractors/utils_time.py] *)
Module utils_time.
Import PyStr Regex.

(** *** [datetime] and [timedelta]

    A [datetime] is its wall-clock reading, in microseconds since
    0001-01-01T00:00:00, and its [tzinfo]: [None] for a naive value, or the
    offset from UTC in microseconds. [datetime.min] reads [0] and
    [datetime.max] reads [MAX_WALL - 1]. A [timedelta] is a number of
    microseconds. *)
Definition US_PER_SECOND : Z := 1000000.
Definition US_PER_MINUTE : Z := 60 * US_PER_SECOND.
Definition US_PER_HOUR : Z := 60 * US_PER_MINUTE.
Definition US_PER_DAY : Z := 24 * US_PER_HOUR.

(** [date.max.toordinal()] is 3652059. *)
Definition MAX_WALL : Z := 3652059 * US_PER_DAY.
Definition MAX_DELTA_DAYS : Z := 999999999.

Record datetime : Type := mk_datetime { wall : Z; tzinfo : option Z }.

Definition utc : option Z := Some 0.

Definition wall_in_range (w : Z) : bool := (0 <=? w) && (w <? MAX_WALL).

(** [timedelta(...)] raises [OverflowError] beyond a magnitude of
    999999999 days. *)
Definition timedelta_us (us : Z) : result Z :=
  let days := us / US_PER_DAY in
  if (- MAX_DELTA_DAYS <=? days) && (days <=? MAX_DELTA_DAYS) then Ok us
  else Raise OverflowError.

Definition timedelta_days (n : Z) : result Z := timedelta_us (n * US_PER_DAY).
Definition timedelta_hours (n : Z) : result Z := timedelta_us (n * US_PER_HOUR).
Definition timedelta_minutes (n : Z) : result Z := timedelta_us (n * US_PER_MINUTE).

(** [dt - delta] raises [OverflowError] outside years 1..9999. *)
Definition datetime_sub (dt : datetime) (delta : Z) : result datetime :=
  let w := wall dt - delta in
  if wall_in_range w then Ok (mk_datetime w (tzinfo dt)) else Raise OverflowError.

(** [dt.replace(hour=h, minute=m, second=0, microsecond=0)] raises
    [ValueError] for an hour outside 0..23 or a minute outside 0..59. *)
Definition replace_time (dt : datetime) (hour minute : Z) : result datetime :=
  if (0 <=? hour) && (hour <=? 23) && (0 <=? minute) && (minute <=? 59) then
    Ok (mk_datetime
          (wall dt / US_PER_DAY * US_PER_DAY + hour * US_PER_HOUR + minute * US_PER_MINUTE)
          (tzinfo dt))
  else Raise ValueError.

(** [dt.astimezone(timezone.utc)] is [dt - dt.utcoffset()] relabelled. *)
Definition astimezone_utc (dt : datetime) (offset : Z) : result datetime :=
  let w := wall dt - offset in
  if wall_in_range w then Ok (mk_datetime w utc) else Raise OverflowError.

(** *** [datetime.strptime] for the three formats of the fallback

    As in [_strptime]: each directive is a group with the pattern of the
    library's table, blanks of the format are [\s+], the pattern is matched
    at the start of the text and nothing may remain after it; the date has
    to exist and a second of 60 or 61 is refused by the [datetime]
    constructor. Every failure is a [ValueError]. *)
Definition dir_Y : regex := Group "Y" (cats [digit; digit; digit; digit]).
Definition dir_m : regex :=
  Group "m" (alts [Cat (chr "1") (cls "0" "2"); Cat (chr "0") (cls "1" "9"); cls "1" "9"]).
Definition dir_d : regex :=
  Group "d" (alts [Cat (chr "3") (cls "0" "1"); Cat (cls "1" "2") digit;
                   Cat (chr "0") (cls "1" "9"); cls "1" "9";
                   Cat (chr " ") (cls "1" "9")]).
Definition dir_H : regex :=
  Group "H" (alts [Cat (chr "2") (cls "0" "3"); Cat (cls "0" "1") digit; digit]).
Definition dir_M : regex := Group "M" (alts [Cat (cls "0" "5") digit; digit]).
Definition dir_S : regex :=
  Group "S" (alts [Cat (chr "6") (cls "0" "1"); Cat (cls "0" "5") digit; digit]).
Definition blanks : regex := plus is_space.

Inductive format : Type :=
| FMT_ISO_SECONDS   (* "%Y-%m-%d %H:%M:%S" *)
| FMT_ISO_DATE      (* "%Y-%m-%d" *)
| FMT_DOTTED.       (* "%d.%m.%Y %H:%M" *)

Definition format_regex (fmt : format) : regex :=
  match fmt with
  | FMT_ISO_SECONDS =>
      cats [dir_Y; chr "-"; dir_m; chr "-"; dir_d; blanks;
            dir_H; chr ":"; dir_M; chr ":"; dir_S]
  | FMT_ISO_DATE => cats [dir_Y; chr "-"; dir_m; chr "-"; dir_d]
  | FMT_DOTTED =>
      cats [dir_d; chr "."; dir_m; chr "."; dir_Y; blanks; dir_H; chr ":"; dir_M]
  end.

Definition is_leap (y : Z) : bool :=
  (y mod 4 =? 0) && (negb (y mod 100 =? 0) || (y mod 400 =? 0)).

Definition days_in_month (y m : Z) : Z :=
  if m =? 2 then (if is_leap y then 29 else 28)
  else if (m =? 4) || (m =? 6) || (m =? 9) || (m =? 11) then 30
  else 31.

Definition days_before_year (y : Z) : Z :=
  let p := y - 1 in p * 365 + p / 4 - p / 100 + p / 400.

Fixpoint days_before_month_from (y : Z) (m : nat) : Z :=
  match m with
  | O => 0
  | S m' => days_before_month_from y m' + days_in_month y (Z.of_nat m)
  end.

Definition days_before_month (y m : Z) : Z :=
  days_before_month_from y (Z.to_nat (m - 1)).

(** [datetime(year, month, day, hour, minute, second)], naive. *)
Definition make_datetime (y m d hh mm ss : Z) : result datetime :=
  if (1 <=? y) && (y <=? 9999) && (1 <=? m) && (m <=? 12)
     && (1 <=? d) && (d <=? days_in_month y m)
     && (0 <=? hh) && (hh <=? 23) && (0 <=? mm) && (mm <=? 59)
     && (0 <=? ss) && (ss <=? 59)
  then
    Ok (mk_datetime
          ((days_before_year y + days_before_month y m + (d - 1)) * US_PER_DAY
           + hh * US_PER_HOUR + mm * US_PER_MINUTE + ss * US_PER_SECOND)
          None)
  else Raise ValueError.

(** A directive absent from the format keeps its default: 0 for the time
    fields. [%d] may match a blank and a digit, which [int] accepts. *)
Definition field (name : string) (caps : captures) : Z :=
  int (lstrip_by is_space (group name caps)).

Definition strptime (text : string) (fmt : format) : result datetime :=
  match rematch (format_regex fmt) text with
  | None => Raise ValueError
  | Some (caps, rest) =>
      if is_empty rest then
        make_datetime (field "Y" caps) (field "m" caps) (field "d" caps)
                      (field "H" caps) (field "M" caps) (field "S" caps)
      else Raise ValueError
  end.

(** *** The module's patterns *)

(** [(?P<value>\d+)\s*(min|mins|minute|minutes)\b] *)
Definition _RELATIVE_MINUTES_PATTERN : regex :=
  cats [Group "value" (plus is_digit); Star is_space;
        Group "2" (alts [ilit "min"; ilit "mins"; ilit "minute"; ilit "minutes"]); WordB].

(** [(?P<value>\d+)\s*(h|hr|hrs|hour|hours)\b] *)
Definition _RELATIVE_HOURS_PATTERN : regex :=
  cats [Group "value" (plus is_digit); Star is_space;
        Group "2" (alts [ilit "h"; ilit "hr"; ilit "hrs"; ilit "hour"; ilit "hours"]); WordB].

(** [(?P<value>\d+)\s*(d|day|days)\b] *)
Definition _RELATIVE_DAYS_PATTERN : regex :=
  cats [Group "value" (plus is_digit); Star is_space;
        Group "2" (alts [ilit "d"; ilit "day"; ilit "days"]); WordB].

(** [(\d{1,2}):(\d{2})], of the yesterday branch. *)
Definition HH_MM_PATTERN : regex :=
  cats [Group "1" (Cat digit (opt digit)); chr ":"; Group "2" (Cat digit digit)].

Definition _ensure_utc (dt : datetime) : result datetime :=
  match tzinfo dt with
  | None => Ok (mk_datetime (wall dt) utc)
  | Some offset => astimezone_utc dt offset
  end.

(** The [for fmt in (...)] loop of the fallback: only [ValueError] is
    caught. *)
Fixpoint try_formats (text : string) (fmts : list format) (now : datetime)
    : result datetime :=
  match fmts with
  | [] => Ok now
  | fmt :: fmts' =>
      match strptime text fmt with
      | Ok dt => _ensure_utc dt
      | Raise ValueError => try_formats text fmts' now
      | Raise e => Raise e
      end
  end.

(** [parse_relative_time(text, now)]; [utcnow] is what
    [datetime.now(timezone.utc)] reads when [now] is [None]. *)
Definition parse_relative_time (utcnow : datetime) (text : string)
    (now : option datetime) : result datetime :=
  now ← match now with
        | None => Ok utcnow
        | Some n => _ensure_utc n
        end;
  let s := lower (strip text) in
  if bool_decide (s ∈ ["just now"; "now"]) then Ok now
  else if startswith s "yesterday" then
    let m := search HH_MM_PATTERN s in
    delta ← timedelta_days 1;
    dt ← datetime_sub now delta;
    match m with
    | Some m =>
        let hour := int (group "1" m) in
        let minute := int (group "2" m) in
        replace_time dt hour minute
    | None => Ok dt
    end
  else
    match search _RELATIVE_MINUTES_PATTERN s with
    | Some m =>
        let minutes := int (group "value" m) in
        delta ← timedelta_minutes minutes;
        datetime_sub now delta
    | None =>
    match search _RELATIVE_HOURS_PATTERN s with
    | Some m =>
        let hours := int (group "value" m) in
        delta ← timedelta_hours hours;
        datetime_sub now delta
    | None =>
    match search _RELATIVE_DAYS_PATTERN s with
    | Some m =>
        let days := int (group "value" m) in
        delta ← timedelta_days days;
        datetime_sub now delta
    | None =>
        try_formats text [FMT_ISO_SECONDS; FMT_ISO_DATE; FMT_DOTTED] now
    end end end.

End utils_time.


(** ** [src/extractors/facebook_parser.py] *)
Module facebook_parser.
Import PyStr Regex.

Definition FOLLOWING_URL_PATTERNS : list string :=
  ["/friends"; "/friends_mutual"; "/following"; "/profile.php"; "facebook.com"].

(** The terms of the navigation filter of [_find_candidate_cards]. *)
Definition SKIP_TERMS : list string :=
  ["home"; "create"; "marketplace"; "groups"; "friends"; "watch"; "menu";
   "log in"; "log out"; "privacy"; "terms"].

Record FollowingProfile : Type := mk_FollowingProfile {
  id : string;
  image : option string;
  title : string;
  subtitle_text : option string;
  url : string;
  username : option string;
  profile_details : option (gmap string string)
}.

(** The values of the dictionary [asdict] returns. *)
Inductive field_value : Type :=
| FNone
| FStr (s : string)
| FDict (d : gmap string string).

Definition of_optional (o : option string) : field_value :=
  match o with Some s => FStr s | None => FNone end.

(** [FollowingProfile.to_dict]: the fields in their declared order. *)
Definition to_dict (p : FollowingProfile) : list (string * field_value) :=
  [("id", FStr (id p));
   ("image", of_optional (image p));
   ("title", FStr (title p));
   ("subtitle_text", of_optional (subtitle_text p));
   ("url", FStr (url p));
   ("username", of_optional (username p));
   ("profile_details",
     match profile_details p with Some d => FDict d | None => FNone end)].

(** *** The parsed document

    A tag is read through [tag.get(name)], [tag.get_text(strip=True)] and
    [tag.find("img")] only. A [soup] is the list of the [a] tags of the
    document, in document order. *)
Record tag : Type := mk_tag {
  attrs : gmap string string;
  text : string;
  img : option (gmap string string)
}.

Abbreviation soup := (list tag).

(** [tag.get(name)] *)
Definition get (a : tag) (name : string) : option string := attrs a !! name.

(** [x or y] on optional strings: [x] when it is a non-empty string. *)
Definition py_or (x y : option string) : option string :=
  match x with
  | Some s => if is_empty s then y else x
  | None => y
  end.

(** [soup.find_all("a", href=True)] *)
Definition find_all_a_href (doc : soup) : list tag :=
  filter (fun a => is_Some (get a "href")) doc.

(** [urlparse(url)], the two components the scraper reads. *)
Record ParseResult : Type := mk_ParseResult { path : string; query : string }.

Inductive log_record : Type :=
| INFO_scraping (url : string)
| DEBUG_resolved (url : string)
| DEBUG_found (n : nat)
| ERROR_failed (url : string) (exc : pyexc).

(** What the scraper takes from its collaborators: the constructor's
    [base_url], [urllib.parse], and the session together with the HTML
    parser: [fetch url] is [session.get(url, timeout=30)],
    [raise_for_status()] and [BeautifulSoup(response.text, "html.parser")],
    and either raises or gives the document's [a] tags. *)
Class Env : Type := {
  base_url : string;
  urljoin : string -> string -> string;
  urlparse : string -> ParseResult;
  fetch : string -> result soup
}.

Section Scraper.
Context `{E : Env}.

(** [self.base_url], set by [__init__]. *)
Definition self_base_url : string := rstrip_slash base_url.

Definition _normalize_profile_url (u : string) : string :=
  if startswith u "http://" || startswith u "https://" then u
  else if startswith u "//" then "https:" +:+ u
  else urljoin (self_base_url +:+ "/") (lstrip_slash u).

(** The body of the loop of [_find_candidate_cards]: [true] when the
    anchor is appended to [candidates]. *)
Definition is_candidate (a : tag) : bool :=
  let href := default EmptyString (get a "href") in
  if negb (existsb (fun pattern => contains pattern href) FOLLOWING_URL_PATTERNS)
  then false
  else
    let text := text a in
    if is_empty text then false
    else
      let lower := lower text in
      if existsb (fun skip => contains skip lower) SKIP_TERMS then false
      else true.

Definition _find_candidate_cards (doc : soup) : list tag :=
  filter (fun a => is_candidate a = true) (find_all_a_href doc).

(** [id=(\d+)] *)
Definition ID_PATTERN : regex := cats [lit "id="; Group "1" (plus is_digit)].

(** [\d+] *)
Definition DIGITS_PATTERN : regex := plus is_digit.

Definition _build_profile_from_anchor (a : tag) (full_url : string) : FollowingProfile :=
  let title := text a in
  let subtitle := py_or (get a "aria-label") (py_or (get a "title") None) in
  let image_url :=
    match img a with
    | Some img_tag =>
        match img_tag !! "src" with
        | Some s => if is_empty s then img_tag !! "data-src" else Some s
        | None => img_tag !! "data-src"
        end
    | None => None
    end in
  let parsed := urlparse full_url in
  let '(username, profile_id) :=
    if contains "profile.php" (path parsed) then
      match search ID_PATTERN (query parsed) with
      | Some m => (None, group "1" m)
      | None => (None, EmptyString)
      end
    else
      let segments := filter (fun seg => is_empty seg = false) (split "/" (path parsed)) in
      match last segments with
      | Some username =>
          match fullmatch DIGITS_PATTERN username with
          | Some _ => (Some username, username)
          | None => (Some username, username)
          end
      | None => (None, EmptyString)
      end in
  let profile_id := if is_empty profile_id then full_url else profile_id in
  let profile_details : gmap string string := ∅ in
  let profile_details :=
    match get a "data-gt" with
    | Some data_gt =>
        if is_empty data_gt then profile_details
        else <["data_gt" := data_gt]> profile_details
    | None => profile_details
    end in
  let profile_details :=
    match get a "data-hovercard" with
    | Some data_hovercard =>
        if is_empty data_hovercard then profile_details
        else <["data_hovercard" := data_hovercard]> profile_details
    | None => profile_details
    end in
  mk_FollowingProfile profile_id image_url title subtitle full_url username
    (if decide (profile_details = ∅) then None else Some profile_details).

(** [limit is not None and len(profiles) >= limit] *)
Definition limit_reached (limit : option Z) (profiles : list FollowingProfile) : bool :=
  match limit with
  | Some n => n <=? Z.of_nat (length profiles)
  | None => false
  end.

(** The [for a in cards] loop of [_scrape_profile], from the state
    [profiles], [seen_urls]. *)
Fixpoint collect (cards : list tag) (limit : option Z)
    (profiles : list FollowingProfile) (seen_urls : gset string)
    : list FollowingProfile :=
  match cards with
  | [] => profiles
  | a :: cards' =>
      match get a "href" with
      | None => collect cards' limit profiles seen_urls
      | Some href =>
          if is_empty href then collect cards' limit profiles seen_urls
          else
            let full_url := _normalize_profile_url href in
            if decide (full_url ∈ seen_urls) then collect cards' limit profiles seen_urls
            else
              let seen_urls := seen_urls ∪ {[full_url]} in
              let profile := _build_profile_from_anchor a full_url in
              let profiles := (profiles ++ [profile])%list in
              if limit_reached limit profiles then profiles
              else collect cards' limit profiles seen_urls
      end
  end.

(** [_scrape_profile] once the document is parsed. *)
Definition scrape_soup (doc : soup) (limit : option Z) : list FollowingProfile :=
  collect (_find_candidate_cards doc) limit [] ∅.

Definition _scrape_profile (profile_url : string) (limit : option Z)
    : list log_record * result (list FollowingProfile) :=
  let resolved_url := _normalize_profile_url profile_url in
  match fetch resolved_url with
  | Raise e => ([DEBUG_resolved resolved_url], Raise e)
  | Ok doc =>
      ([DEBUG_resolved resolved_url;
        DEBUG_found (length (_find_candidate_cards doc))],
       Ok (scrape_soup doc limit))
  end.

(** [remaining is not None and remaining <= 0] *)
Definition exhausted (remaining : option Z) : bool :=
  match remaining with
  | Some n => n <=? 0
  | None => false
  end.

(** The [for url in urls] loop of [scrape], from the state [all_profiles],
    [remaining] and the log written so far. *)
Fixpoint scrape_loop (urls : list string)
    (all_profiles : list (list (string * field_value))) (remaining : option Z)
    (log : list log_record)
    : list log_record * result (list (list (string * field_value))) :=
  match urls with
  | [] => (log, Ok all_profiles)
  | u :: urls' =>
      if exhausted remaining then (log, Ok all_profiles)
      else
        let log := (log ++ [INFO_scraping u])%list in
        match _scrape_profile u remaining with
        | (lg, Raise exc) =>
            if is_Exception exc then
              scrape_loop urls' all_profiles remaining (log ++ lg ++ [ERROR_failed u exc])%list
            else ((log ++ lg)%list, Raise exc)
        | (lg, Ok profiles) =>
            scrape_loop urls' (all_profiles ++ map to_dict profiles)%list
              (match remaining with
               | Some n => Some (n - Z.of_nat (length profiles))
               | None => None
               end)
              (log ++ lg)%list
        end
  end.

Definition scrape (urls : list string) (max_items : option Z)
    : list log_record * result (list (list (string * field_value))) :=
  scrape_loop urls [] max_items [].

End Scraper.

(** *** A reading of [urllib.parse] for plain URLs

    Used to run the scraper on examples. [urlparse_plain] splits off the
    scheme, the authority after [//], the fragment, the query and the
    parameters of the last segment, in the order [urlsplit] does;
    [urljoin_plain] is [urljoin] on a base that ends in [/] and a relative
    path without scheme, dot segments, query or fragment. *)
Definition is_scheme_char (c : ascii) : bool :=
  is_digit c || is_upper c || is_lower c || Ascii.eqb c "+" || Ascii.eqb c "-" || Ascii.eqb c ".".

(** [s.partition(c)]: the text before the first [c] and, when there is one,
    the text after it. *)
Fixpoint partition_at (p : ascii -> bool) (s : string) : string * option string :=
  match s with
  | EmptyString => (EmptyString, None)
  | String c s' =>
      if p c then (EmptyString, Some s')
      else let '(before, after) := partition_at p s' in (String c before, after)
  end.

Definition split_scheme (u : string) : string :=
  match partition_at (Ascii.eqb ":") u with
  | (String c scheme, Some rest) =>
      if (is_upper c || is_lower c) && forallb is_scheme_char (list_ascii_of_string scheme)
      then rest else u
  | _ => u
  end.

Definition split_netloc (u : string) : string :=
  if startswith u "//" then
    let rest := String.substring 2 (String.length u - 2) u in
    let authority :=
      fst (partition_at (fun c => Ascii.eqb c "/" || Ascii.eqb c "?" || Ascii.eqb c "#") rest) in
    String.substring (String.length authority) (String.length rest - String.length authority) rest
  else u.

Definition split_params (p : string) : string :=
  let segments := split "/" p in
  match last segments with
  | Some seg =>
      let kept := fst (partition_at (Ascii.eqb ";") seg) in
      String.substring 0 (String.length p - (String.length seg - String.length kept)) p
  | None => p
  end.

Definition urlparse_plain (u : string) : ParseResult :=
  let rest := split_netloc (split_scheme u) in
  let rest := fst (partition_at (Ascii.eqb "#") rest) in
  let '(p, q) := partition_at (Ascii.eqb "?") rest in
  mk_ParseResult (split_params p) (default EmptyString q).

Definition urljoin_plain (base u : string) : string := base +:+ u.

Definition plain_env (fetch : string -> result soup) : Env :=
  {| base_url := "https://www.facebook.com";
     urljoin := urljoin_plain;
     urlparse := urlparse_plain;
     fetch := fetch |}.

End facebook_parser.

(** ** [src/outputs/exporters.py] *)
Module exporters.
Import PyStr.

(** *** Records

    A record is a [Mapping[str, Any]]. The exporters read a value only
    through the serializers: [PObject] stands for any value that is not
    [None], a Boolean, an integer or a string, and carries its [str()]. *)
Inductive pyvalue : Type :=
| PNone
| PBool (b : bool)
| PInt (n : Z)
| PStr (s : string)
| PObject (str : string).

Abbreviation record := (gmap string pyvalue).

(** *** Paths and the file system

    A path is the list of its components, as [PurePath.parts]; the root of
    an absolute path is the component [/]. *)
Abbreviation path := (list string).

Definition Path (s : string) : path :=
  let names :=
    filter (fun c => is_empty c = false /\ c <> ".") (split "/" s) in
  if startswith s "/" then "/" :: names else names.

Definition path_parent (p : path) : path :=
  match p with
  | ["/"] => p
  | _ => removelast p
  end.

Definition path_name (p : path) : string :=
  match p with
  | ["/"] => EmptyString
  | _ => List.last p EmptyString
  end.

(** [s.rfind(".")] *)
Fixpoint rfind_dot (s : string) : option nat :=
  match s with
  | EmptyString => None
  | String c s' =>
      match rfind_dot s' with
      | Some i => Some (S i)
      | None => if Ascii.eqb c "." then Some O else None
      end
  end.

(** [path.suffix]: from the last dot of the name, unless the name starts
    or ends with it. *)
Definition path_suffix (p : path) : string :=
  let name := path_name p in
  match rfind_dot name with
  | Some i =>
      if (0 <? i)%nat && (i <? String.length name - 1)%nat
      then String.substring i (String.length name - i) name
      else EmptyString
  | None => EmptyString
  end.

Inductive fs_call : Type :=
| EXISTS (p : path)
| MKDIR (p : path)
| TOUCH (p : path)
| OPEN_W (p : path)
| WRITE (p : path) (data : string).

Inductive log_line : Type :=
| DEBUG_exporting (n : nat) (p : path) (fmt : string)
| INFO_complete (p : path) (fmt : string).

(** The directories, the files with their contents, the calls made to the
    file system and the lines logged. The calls always succeed: a failing
    disk is not part of the model. *)
Record world : Type := mk_world {
  dirs : gset path;
  files : gmap path string;
  calls : list fs_call;
  logged : list log_line
}.

Definition IO (A : Type) : Type := world -> result A * world.

#[global] Instance IO_ret : MRet IO := fun A a w => (Ok a, w).
#[global] Instance IO_bind : MBind IO := fun A B f m w =>
  match m w with
  | (Ok a, w') => f a w'
  | (Raise e, w') => (Raise e, w')
  end.

Definition raise {A} (e : pyexc) : IO A := fun w => (Raise e, w).

Definition called (c : fs_call) (w : world) : world :=
  mk_world (dirs w) (files w) (calls w ++ [c]) (logged w).

Definition log (l : log_line) : IO unit := fun w =>
  (Ok tt, mk_world (dirs w) (files w) (calls w) (logged w ++ [l])).

(** The current directory and the root always exist. *)
Definition is_present (p : path) (w : world) : bool :=
  bool_decide (p = []) || bool_decide (p = ["/"])
  || bool_decide (p ∈ dirs w) || bool_decide (is_Some (files w !! p)).

(** [path.exists()] *)
Definition exists_ (p : path) : IO bool := fun w =>
  (Ok (is_present p w), called (EXISTS p) w).

(** The path and the paths above it: [p], [p.parent], ... *)
Fixpoint ancestors_from (fuel : nat) (p : path) : list path :=
  match fuel with
  | O => []
  | S fuel' =>
      match p with
      | [] | ["/"] => []
      | _ => p :: ancestors_from fuel' (path_parent p)
      end
  end.

(** [path.mkdir(parents=True, exist_ok=True)] *)
Definition mkdir_parents (p : path) : IO unit := fun w =>
  let w := called (MKDIR p) w in
  (Ok tt,
   mk_world (dirs w ∪ list_to_set (ancestors_from (length p) p)) (files w)
            (calls w) (logged w)).

(** [path.touch()]: an existing file keeps its contents. *)
Definition touch (p : path) : IO unit := fun w =>
  let w := called (TOUCH p) w in
  (Ok tt,
   match files w !! p with
   | Some _ => w
   | None => mk_world (dirs w) (<[p := EmptyString]> (files w)) (calls w) (logged w)
   end).

(** [with path.open("w") as f: f.write(data)]: the file is created or
    truncated, then written. *)
Definition open_w (p : path) : IO unit := fun w =>
  let w := called (OPEN_W p) w in
  (Ok tt, mk_world (dirs w) (<[p := EmptyString]> (files w)) (calls w) (logged w)).

Definition write (p : path) (data : string) : IO unit := fun w =>
  let w := called (WRITE p data) w in
  (Ok tt,
   mk_world (dirs w) (<[p := default EmptyString (files w !! p) +:+ data]> (files w))
            (calls w) (logged w)).

(** [json.dump(records, f, ensure_ascii=False, indent=2)] and
    [json.dumps(record, ensure_ascii=False)], taken from the [json]
    module. *)
Class Serializer : Type := {
  json_dump : list record -> string;
  json_dumps : record -> string
}.

(** *** The [csv] module, for the default dialect *)
Definition DQUOTE : ascii := Ascii false true false false false true false false.
Definition CR : ascii := "013"%char.
Definition LF : ascii := "010"%char.
Definition CRLF : string := String CR (String LF EmptyString).

(** What [csv.writer] writes for a value: nothing for [None], a string as
    it is, [str(value)] otherwise. *)
Definition cell_text (v : pyvalue) : string :=
  match v with
  | PNone => EmptyString
  | PBool b => if b then "True" else "False"
  | PInt n => str_int n
  | PStr s => s
  | PObject str => str
  end.

Definition is_special (c : ascii) : bool :=
  Ascii.eqb c "," || Ascii.eqb c DQUOTE || Ascii.eqb c CR || Ascii.eqb c LF.

Fixpoint double_quotes (s : string) : string :=
  match s with
  | EmptyString => EmptyString
  | String c s' =>
      if Ascii.eqb c DQUOTE then String c (String c (double_quotes s'))
      else String c (double_quotes s')
  end.

(** [QUOTE_MINIMAL] *)
Definition quote_field (s : string) : string :=
  if existsb is_special (list_ascii_of_string s)
  then String DQUOTE (double_quotes s) +:+ String DQUOTE EmptyString
  else s.

Fixpoint join (sep : string) (l : list string) : string :=
  match l with
  | [] => EmptyString
  | [s] => s
  | s :: l' => s +:+ sep +:+ join sep l'
  end.

(** [writer.writerow(cells)]: the text of one line. A row of one empty
    cell is written as a pair of quotes. *)
Definition row_text (cells : list string) : string :=
  match cells with
  | [EmptyString] => String DQUOTE (String DQUOTE EmptyString) +:+ CRLF
  | _ => join "," (map quote_field cells) +:+ CRLF
  end.

(** [DictWriter._dict_to_list]: with [extrasaction="raise"] a key outside
    [fieldnames] is a [ValueError]; a missing key reads [restval], the
    empty string. *)
Definition _dict_to_list (fieldnames : list string) (rowdict : record)
    : result (list pyvalue) :=
  if decide (dom rowdict ⊆ (list_to_set fieldnames : gset string)) then
    Ok (map (fun key => default (PStr EmptyString) (rowdict !! key)) fieldnames)
  else Raise ValueError.

(** [DictWriter.writerow(rowdict)], as the line it writes. *)
Definition writerow (fieldnames : list string) (rowdict : record) : result string :=
  cells ← _dict_to_list fieldnames rowdict;
  Ok (row_text (map cell_text cells)).

(** [DictWriter.writeheader()]: the row that maps each field to itself. *)
Definition writeheader (fieldnames : list string) : result string :=
  writerow fieldnames (list_to_map (map (fun k => (k, PStr k)) fieldnames)).

(** [sorted(fieldnames)]: strings compare by their characters' codes. *)
Definition str_le (a b : string) : Prop := String.leb a b = true.

#[global] Instance str_le_dec a b : Decision (str_le a b).
Proof. unfold str_le. apply _. Defined.

Definition sorted (keys : gset string) : list string :=
  merge_sort str_le (elements keys).

(** *** The exporters *)
Definition _ensure_parent_dir (p : path) : IO unit :=
  present ← exists_ (path_parent p);
  if negb present then mkdir_parents (path_parent p) else mret tt.

(** [dict(record)] copies the mapping. *)
Definition _normalize_records (records : list record) : list record :=
  map (fun r => r) records.

Definition supported : list string := ["json"; "jsonl"; "csv"].

Section Exporters.
Context `{S : Serializer}.

Definition _export_json (records : list record) (p : path) : IO unit :=
  open_w p ;; write p (json_dump records).

Fixpoint write_lines (p : path) (lines : list string) : IO unit :=
  match lines with
  | [] => mret tt
  | l :: lines' => write p l ;; write_lines p lines'
  end.

Definition _export_jsonl (records : list record) (p : path) : IO unit :=
  open_w p ;;
  write_lines p (map (fun r => json_dumps r +:+ String LF EmptyString) records).

(** The [for record in records: writer.writerow(record)] loop. *)
Fixpoint write_rows (p : path) (fieldnames : list string) (records : list record)
    : IO unit :=
  match records with
  | [] => mret tt
  | r :: records' =>
      match writerow fieldnames r with
      | Ok line => write p line ;; write_rows p fieldnames records'
      | Raise e => raise e
      end
  end.

Definition _export_csv (records : list record) (p : path) : IO unit :=
  match records with
  | [] => touch p
  | _ =>
      let fieldnames : gset string := ⋃ (map dom records) in
      let ordered_fields := sorted fieldnames in
      open_w p ;;
      match writeheader ordered_fields with
      | Ok line => write p line ;; write_rows p ordered_fields records
      | Raise e => raise e
      end
  end.

Definition export_data (records : list record) (output_path : string)
    (output_format : option string) : IO unit :=
  let p := Path output_path in
  let output_format :=
    match output_format with
    | None =>
        let ext := lstrip_dot (lower (path_suffix p)) in
        if is_empty ext then "json" else ext
    | Some f => f
    end in
  let output_format := lower output_format in
  if negb (bool_decide (output_format ∈ supported)) then raise ValueError
  else
    let records_list := _normalize_records records in
    log (DEBUG_exporting (length records_list) p output_format) ;;
    _ensure_parent_dir p ;;
    (if String.eqb output_format "json" then _export_json records_list p
     else if String.eqb output_format "jsonl" then _export_jsonl records_list p
     else if String.eqb output_format "csv" then _export_csv records_list p
     else mret tt) ;;
    log (INFO_complete p output_format).

End Exporters.

Definition empty_world : world := mk_world ∅ ∅ [] [].

End exporters.

(** ** [src/runner.py]

    The command line runner: the configuration it assembles from the
    defaults, the settings file and the command line, and the input file
    it reads. The file system is the [world] of the exporters; the runner
    only reads it. *)
Module runner.
Import PyStr exporters.

(** The lines the runner logs. *)
Inductive runner_log : Type :=
| WARNING_settings_failed (p : path) (exc : pyexc)
| INFO_settings_not_found (p : path)
| ERROR_input_missing (p : path)
| WARNING_no_urls (p : path).

Definition DEFAULT_CONFIG : gmap string pyvalue :=
  {[ "input_file" := PStr "data/inputs.sample.txt";
     "output_file" := PStr "data/output.json";
     "output_format" := PStr "json";
     "max_items" := PInt 250;
     "log_level" := PStr "INFO" ]}.

(** The [argparse.Namespace] of [main]: an option that is not given is
    [None]. *)
Record Namespace : Type := mk_Namespace {
  settings : option string;
  input_file : option string;
  output_file : option string;
  format : option string;
  max_items : option Z
}.

(** [path.is_absolute()] *)
Definition is_absolute (p : path) : bool :=
  match p with
  | c :: _ => String.eqb c "/"
  | [] => false
  end.

(** [root / p] *)
Definition joinpath (root p : path) : path :=
  if is_absolute p then p else root ++ p.

(** [path.is_file()] *)
Definition is_file (p : path) (w : world) : bool :=
  bool_decide (is_Some (files w !! p)).

(** What [json.load] returns: a [dict], or a value that is not a [dict]. *)
Inductive loaded : Type :=
| LDict (d : gmap string pyvalue)
| LOther.

(** [json.load] on the text of a file. *)
Class Loader : Type := { json_load : string -> result loaded }.

(** The logger [facebook_following_scraper]: the number of its handlers
    and its level. *)
Record logger_state : Type := mk_logger {
  handlers : nat;
  level : Z
}.

(** [bool(v)] of a value of the configuration. A value that is neither
    [None], a Boolean, an integer nor a string comes from the JSON of the
    settings file: a float, a list or a [dict], which is false when it is
    zero or empty. *)
Definition truthy (v : pyvalue) : bool :=
  match v with
  | PNone => false
  | PBool b => b
  | PInt n => negb (n =? 0)
  | PStr s => negb (is_empty s)
  | PObject str => negb (bool_decide (str ∈ ["0.0"; "-0.0"; "[]"; "{}"]))
  end.

(** [if option:] on an option of the command line. *)
Definition given (o : option string) : option string :=
  match o with
  | Some s => if is_empty s then None else Some s
  | None => None
  end.

Section Runner.
Context `{L : Loader}.

(** [getattr(logging, name, logging.INFO)] followed by
    [logger.setLevel]: the level set, or the exception of [setLevel]. *)
Variable numeric_level : string -> result Z.

Definition upper_char (c : ascii) : ascii :=
  if is_lower c then ascii_of_N (N_of_ascii c - 32) else c.

(** [s.upper()] *)
Fixpoint upper (s : string) : string :=
  match s with
  | EmptyString => EmptyString
  | String c s' => String (upper_char c) (upper s')
  end.

Definition setup_logger (lvl : pyvalue) (logger : logger_state) : result logger_state :=
  if (0 <? handlers logger)%nat then Ok logger
  else
    match lvl with
    | PStr s =>
        match numeric_level (upper s) with
        | Ok n => Ok (mk_logger (handlers logger + 1) n)
        | Raise e => Raise e
        end
    | _ => Raise (OtherException "AttributeError")
    end.

Definition load_settings (settings_path : option path) (root_dir : path) (w : world)
    : list runner_log * result (gmap string pyvalue) :=
  let config := DEFAULT_CONFIG in
  let settings_path :=
    match settings_path with
    | None => joinpath (joinpath (joinpath root_dir ["src"]) ["config"]) ["settings.example.json"]
    | Some p => p
    end in
  let settings_path :=
    if negb (is_absolute settings_path) then joinpath root_dir settings_path
    else settings_path in
  if is_file settings_path w then
    match json_load (default EmptyString (files w !! settings_path)) with
    | Ok (LDict file_config) => ([], Ok (file_config ∪ config))
    | Ok LOther => ([], Ok config)
    | Raise exc =>
        if is_Exception exc then ([WARNING_settings_failed settings_path exc], Ok config)
        else ([], Raise exc)
    end
  else ([INFO_settings_not_found settings_path], Ok config).

Definition apply_cli_overrides (config : gmap string pyvalue) (args : Namespace)
    : gmap string pyvalue :=
  let config :=
    match given (input_file args) with
    | Some s => <["input_file" := PStr s]> config
    | None => config
    end in
  let config :=
    match given (output_file args) with
    | Some s => <["output_file" := PStr s]> config
    | None => config
    end in
  let config :=
    match given (format args) with
    | Some s => <["output_format" := PStr s]> config
    | None => config
    end in
  match max_items args with
  | Some n => <["max_items" := PInt n]> config
  | None => config
  end.

(** [Path(path_str)] raises [TypeError] on a value that is not a string. *)
Definition resolve_path (path_str : pyvalue) (root_dir : path) : result path :=
  match path_str with
  | PStr s => Ok (joinpath root_dir (Path s))
  | _ => Raise (OtherException "TypeError")
  end.

(** The text a file opened for reading gives: [\r\n] and [\r] are read as
    [\n]. [after_cr] tells that the character before was [\r]. *)
Fixpoint translate_newlines (after_cr : bool) (s : string) : string :=
  match s with
  | EmptyString => EmptyString
  | String c s' =>
      if Ascii.eqb c LF then
        if after_cr then translate_newlines false s'
        else String LF (translate_newlines false s')
      else if Ascii.eqb c CR then String LF (translate_newlines true s')
      else String c (translate_newlines false s')
  end.

(** [for line in f]: the lines with their [\n]; the last one has none when
    the text does not end with it. *)
Fixpoint readlines (s : string) : list string :=
  match s with
  | EmptyString => []
  | String c s' =>
      if Ascii.eqb c LF then String LF EmptyString :: readlines s'
      else
        match readlines s' with
        | l :: ls => String c l :: ls
        | [] => [String c EmptyString]
        end
  end.

(** The loop of [read_input_urls] over the text of the file. *)
Definition urls_of_text (content : string) : list string :=
  filter (fun stripped => is_empty stripped = false /\ startswith stripped "#" = false)
         (map strip (readlines (translate_newlines false content))).

Definition read_input_urls (input_file : path) (w : world)
    : list runner_log * result (list string) :=
  if negb (is_file input_file w) then
    ([ERROR_input_missing input_file], Raise (OtherException "FileNotFoundError"))
  else
    let urls := urls_of_text (default EmptyString (files w !! input_file)) in
    (if bool_decide (urls = []) then [WARNING_no_urls input_file] else [], Ok urls).

(** What [main] has settled when it starts to read the input file. *)
Record run_config : Type := mk_run_config {
  run_input_file : path;
  run_output_file : path;
  run_output_format : pyvalue;
  run_max_items : pyvalue;
  run_logger : logger_state
}.

(** [config[key]] *)
Definition getitem (config : gmap string pyvalue) (key : string) : result pyvalue :=
  match config !! key with
  | Some v => Ok v
  | None => Raise (OtherException "KeyError")
  end.

(** [main], from the parsed command line to the configuration of the run. *)
Definition main_config (args : Namespace) (root_dir : path) (logger : logger_state)
    (w : world) : list runner_log * result run_config :=
  match setup_logger (default PNone (DEFAULT_CONFIG !! "log_level")) logger with
  | Raise e => ([], Raise e)
  | Ok temp_logger =>
      match load_settings (Path <$> given (settings args)) root_dir w with
      | (lg, Raise e) => (lg, Raise e)
      | (lg, Ok config) =>
          let config := apply_cli_overrides config args in
          (lg,
           logger ← setup_logger (default (PStr "INFO") (config !! "log_level")) temp_logger;
           input_path ← getitem config "input_file";
           input_file ← resolve_path input_path root_dir;
           output_path ← getitem config "output_file";
           output_file ← resolve_path output_path root_dir;
           let inferred :=
             let ext := lstrip_dot (path_suffix output_file) in
             PStr (if is_empty ext then "json" else ext) in
           let output_format :=
             match config !! "output_format" with
             | Some v => if truthy v then v else inferred
             | None => inferred
             end in
           let max_items := default PNone (config !! "max_items") in
           Ok (mk_run_config input_file output_file output_format max_items logger))
      end
  end.

End Runner.

End runner.

(** * Vocabulary of the statements *)

(** The instant a [datetime] denotes, in microseconds of UTC; a naive value
    is read as UTC. *)
Definition instant (dt : utils_time.datetime) : Z :=
  utils_time.wall dt - default 0 (utils_time.tzinfo dt).

(** A reference instant used in the examples: naive, 05:00 on day 739000. *)
Definition T_example : utils_time.datetime :=
  utils_time.mk_datetime
    (739000 * utils_time.US_PER_DAY + 5 * utils_time.US_PER_HOUR) None.

Section ParserVocabulary.
Import PyStr facebook_parser.
Context `{E : Env}.

(** The deduplication key of an anchor: its normalized target, when it has
    a non-empty [href]. *)
Definition card_url (a : tag) : option string :=
  match get a "href" with
  | Some href => if is_empty href then None else Some (_normalize_profile_url href)
  | None => None
  end.

(** The anchors of [cards] that open a new URL, with that URL: an anchor is
    kept when its URL is neither in [seen] nor the URL of an anchor before
    it. *)
Fixpoint kept (cards : list tag) (seen : gset string) : list (tag * string) :=
  match cards with
  | [] => []
  | a :: cards' =>
      match card_url a with
      | Some u =>
          if decide (u ∈ seen) then kept cards' seen
          else (a, u) :: kept cards' (seen ∪ {[u]})
      | None => kept cards' seen
      end
  end.

Definition build (au : tag * string) : FollowingProfile :=
  _build_profile_from_anchor au.1 au.2.

(** The non-empty segments of a path, as [_build_profile_from_anchor]
    computes them. *)
Definition nonempty_segments (p : string) : list string :=
  filter (fun seg => is_empty seg = false) (split "/" p).

(** The records of a document when no limit is given. *)
Definition all_profiles (doc : soup) : list FollowingProfile :=
  map build (kept (_find_candidate_cards doc) ∅).






(** The list [scrape] returns, without its log. *)
Fixpoint scrape_records (urls : list string) (remaining : option Z)
    : result (list (list (string * field_value))) :=
  match urls with
  | [] => Ok []
  | u :: urls' =>
      if exhausted remaining then Ok []
      else
        match fetch (_normalize_profile_url u) with
        | Raise exc =>
            if is_Exception exc then scrape_records urls' remaining else Raise exc
        | Ok doc =>
            let profiles := scrape_soup doc remaining in
            rest ← scrape_records urls'
                     (match remaining with
                      | Some n => Some (n - Z.of_nat (length profiles))
                      | None => None
                      end);
            Ok (map to_dict profiles ++ rest)
        end
  end.

End ParserVocabulary.

(** *** Examples *)
Section Examples.
Import facebook_parser.

Definition anchor (href text : string) : tag :=
  mk_tag {[ "href" := href ]} text None.

(** Two profiles, the first linked a second time under another text. *)
Definition doc_example : list tag :=
  [anchor "https://www.facebook.com/UncutMagazine" "Uncut Magazine";
   anchor "https://www.facebook.com/example.profile" "Example Profile";
   anchor "//www.facebook.com/UncutMagazine" "Uncut Magazine (again)"].

(** Every page is [doc_example], except one that is down. *)
Definition fetch_example (u : string) : result (list tag) :=
  if String.eqb u "https://www.facebook.com/down"
  then Raise (RequestException "503 Server Error")
  else Ok doc_example.

Definition E_example : Env := plain_env fetch_example.

Definition uncut : tag := anchor "https://www.facebook.com/UncutMagazine" "Uncut Magazine".
Definition example_profile : tag :=
  anchor "https://www.facebook.com/example.profile" "Example Profile".

(** A page whose last segment is a number, and a page named after
    friends. *)
Definition numbered_page : tag :=
  anchor "https://www.facebook.com/pages/category/SomePage/12345" "Some Page".
Definition friends_of_the_earth : tag :=
  anchor "https://www.facebook.com/friendsoftheearth" "Friends of the Earth".


End Examples.

Section ExportVocabulary.
Import PyStr exporters.

(** The format [export_data] decides on: the explicit one, else the
    extension of the path, else [json]; lower-cased. *)
Definition requested_format (output_path : string) (output_format : option string)
    : string :=
  lower
    match output_format with
    | None =>
        let ext := lstrip_dot (lower (path_suffix (Path output_path))) in
        if is_empty ext then "json" else ext
    | Some f => f
    end.

(** The CSV text of a non-empty list of records, as the spec words it:
    the header is the sorted union of the keys, then one row per record
    with an empty cell for a key the record lacks. *)
Definition csv_header (records : list record) : list string :=
  sorted (⋃ (map dom records)).

Definition csv_cells (fieldnames : list string) (r : record) : list string :=
  map (fun k => match r !! k with Some v => cell_text v | None => EmptyString end)
      fieldnames.

Fixpoint concat_lines (lines : list string) : string :=
  match lines with
  | [] => EmptyString
  | l :: lines' => l +:+ concat_lines lines'
  end.

Definition csv_text (records : list record) : string :=
  row_text (csv_header records)
  +:+ concat_lines (map (fun r => row_text (csv_cells (csv_header records) r)) records).

(** An action that returns normally from every state of the world. *)
Definition succeeds {A} (m : IO A) : Prop :=
  forall w, exists a w', m w = (Ok a, w').

(** A serializer for the examples, which export no record as JSON. *)
Definition json_of_nothing : Serializer :=
  {| json_dump := fun _ => "[]"; json_dumps := fun _ => "{}" |}.

(** The two records of the spec's example, [{"a": 1}] and [{"b": 2}]. *)
Definition records_example : list record :=
  [ {[ "a" := PInt 1 ]}; {[ "b" := PInt 2 ]} ].

(** A world where an earlier run left [out.csv]. *)
Definition stale_world : world :=
  mk_world ∅ {[ ["out.csv"] := "a,b" +:+ CRLF +:+ "1,2" +:+ CRLF ]} [] [].

End ExportVocabulary.

(** ** Further vocabulary *)
Section MoreVocabulary.
Import PyStr Regex utils_time.

(** The names of the groups of a pattern. *)
Fixpoint names (r : regex) : list string :=
  match r with
  | Group name r1 => name :: names r1
  | Cat r1 r2 | Alt r1 r2 => names r1 ++ names r2
  | _ => []
  end.

(** The texts a pattern reads, word boundaries apart. *)
Fixpoint lang (r : regex) (t : string) : Prop :=
  match r with
  | Eps | WordB => t = EmptyString
  | Chr p => exists c, t = String c EmptyString /\ p c = true
  | Cat r1 r2 => exists t1 t2, t = t1 +:+ t2 /\ lang r1 t1 /\ lang r2 t2
  | Alt r1 r2 => lang r1 t \/ lang r2 t
  | Star p => forallb p (list_ascii_of_string t) = true
  | Group _ r1 => lang r1 t
  end.

(** A string of decimal digits. *)
Definition all_digits (s : string) : Prop :=
  forallb is_digit (list_ascii_of_string s) = true.

(** The texts one of the relative forms reads: a now-token, a text that
    starts with [yesterday], or a count of minutes, hours or days. *)
Definition relative_form (s : string) : Prop :=
  s ∈ ["just now"; "now"] \/ startswith s "yesterday" = true \/
  is_Some (search _RELATIVE_MINUTES_PATTERN s) \/
  is_Some (search _RELATIVE_HOURS_PATTERN s) \/
  is_Some (search _RELATIVE_DAYS_PATTERN s).

End MoreVocabulary.

Section MoreExamples.
Import facebook_parser.

(** An environment where one page cannot be fetched because the run is
    interrupted. *)
Definition fetch_interrupted (u : string) : result (list tag) :=
  if String.eqb u "https://www.facebook.com/stop" then Raise KeyboardInterrupt
  else Ok doc_example.

Definition E_interrupted : Env := plain_env fetch_interrupted.


End MoreExamples.

Section MoreExportVocabulary.
Import exporters.




End MoreExportVocabulary.

Section RunnerVocabulary.
Import PyStr exporters runner.

(** The text holds ASCII characters only. *)
Definition ascii_text (s : string) : Prop :=
  forallb (fun c => (N_of_ascii c <? 128)%N) (list_ascii_of_string s) = true.

(** The settings file [load_settings] looks for. *)
Definition settings_file (settings_path : option path) (root_dir : path) : path :=
  let p := default (root_dir ++ ["src"; "config"; "settings.example.json"]) settings_path in
  if is_absolute p then p else root_dir ++ p.

(** A world with one file at [p]. *)
Definition world_with (p : path) (content : string) : world :=
  mk_world ∅ {[ p := content ]} [] [].

Definition input_example : string :=
  "# people" +:+ CRLF +:+ "  https://www.facebook.com/zuck  " +:+ String LF EmptyString
  +:+ String LF EmptyString +:+ "alice".

(** Two input files and the two joined by a newline. *)
Definition three_files : world :=
  mk_world ∅ {[ ["a.txt"] := "alice" +:+ CRLF +:+ "# friends";
                ["b.txt"] := " bob";
                ["all.txt"] := ("alice" +:+ CRLF +:+ "# friends") +:+ String LF " bob" ]}
           [] [].

Definition quoted (s : string) : string :=
  String DQUOTE (s +:+ String DQUOTE EmptyString).

(** A settings file that names a log level and an input file, and leaves
    the format to the extension of the output file. *)
Definition settings_example : string :=
  "{" +:+ quoted "log_level" +:+ ": " +:+ quoted "DEBUG" +:+ ", "
  +:+ quoted "input_file" +:+ ": " +:+ quoted "urls.txt" +:+ ", "
  +:+ quoted "output_format" +:+ ": null}".

(** A loader that reads [settings_example] and rejects other texts. *)
Definition loader_example : Loader :=
  {| json_load := fun text =>
       if String.eqb text settings_example
       then Ok (LDict {[ "log_level" := PStr "DEBUG";
                         "input_file" := PStr "urls.txt";
                         "output_format" := PNone ]})
       else Raise ValueError |}.

(** The levels of [logging]; a name it does not know gives [INFO]. *)
Definition numeric_level_example (name : string) : result Z :=
  Ok (if String.eqb name "DEBUG" then 10
      else if String.eqb name "WARNING" then 30
      else if String.eqb name "ERROR" then 40
      else if String.eqb name "CRITICAL" then 50
      else 20).

Definition root_example : path := ["/"; "app"].

(** [--output-file out/data.csv --max-items 0] *)
Definition args_example : Namespace :=
  mk_Namespace None None (Some "out/data.csv") None (Some 0).

Definition fresh_logger : logger_state := mk_logger 0 0.

(** The project with its settings file, and without. *)
Definition settings_world : world :=
  world_with ["/"; "app"; "src"; "config"; "settings.example.json"] settings_example.

Definition run_with_settings : run_config :=
  mk_run_config ["/"; "app"; "urls.txt"] ["/"; "app"; "out"; "data.csv"]
                (PStr "csv") (PInt 0) (mk_logger 1 20).


End RunnerVocabulary.

Section PipelineVocabulary.
Import facebook_parser exporters.

(** [main] passes the list [scrape] returns to [export_data]: the [dict]
    of a profile as a record of the exporters. [value_of] is the value
    the exporters read for a field. *)
Definition as_record (value_of : field_value -> pyvalue)
    (d : list (string * field_value)) : record :=
  list_to_map (prod_map (fun k : string => k) value_of <$> d).

(** The fields of a profile, sorted. *)
Definition scraped_columns : list string :=
  ["id"; "image"; "profile_details"; "subtitle_text"; "title"; "url"; "username"].

(** [None] gives an empty cell, a string itself, and the details their
    [str()], here left out. *)
Definition value_example (v : field_value) : pyvalue :=
  match v with
  | FNone => PNone
  | FStr s => PStr s
  | FDict _ => PObject "{...}"
  end.

End PipelineVocabulary.

(** * Properties *)

(** ** The time normalizer *)
Section TimeFacts.
Import PyStr Regex utils_time.

Lemma ensure_utc_tzinfo dt now : _ensure_utc dt = Ok now -> tzinfo now = utc.
Proof.
  unfold _ensure_utc, astimezone_utc.
  destruct (tzinfo dt); [destruct (wall_in_range _)|]; intros H; inversion H; reflexivity.
Qed.

Lemma ensure_utc_wall dt now : _ensure_utc dt = Ok now -> wall now = instant dt.
Proof.
  unfold _ensure_utc, astimezone_utc, instant.
  destruct (tzinfo dt); [destruct (wall_in_range _)|]; intros H; inversion H; simpl; lia.
Qed.

(** A reference instant inside the range of [datetime] is normalized
    without error, to the same instant. *)
Lemma ensure_utc_in_range dt :
  wall_in_range (instant dt) = true ->
  _ensure_utc dt = Ok (mk_datetime (instant dt) utc).
Proof.
  unfold _ensure_utc, astimezone_utc, instant.
  destruct (tzinfo dt) as [off|]; simpl.
  - intros ->. reflexivity.
  - intros _. do 2 f_equal. lia.
Qed.






(** The text of a call is a literal in the examples: once the reference
    instant is normalized, the two sides agree by computation. *)
Lemma result_bind_Ok {A} (m : result A) :
  match m with Ok a => Ok a | Raise e => Raise e end = m.
Proof. destruct m; reflexivity. Qed.

Ltac by_text T :=
  unfold parse_relative_time;
  destruct (_ensure_utc T) as [?now|?e]; [|reflexivity];
  first [ reflexivity
        | cbv [mbind result_bind]; etransitivity; [|apply result_bind_Ok];
          reflexivity ].




(** C3: the text ["Yesterday at 25:00"] makes [parse_relative_time] raise
    for every reference instant (a [ValueError] from [replace] when the
    instant is in range), although ["garbage text"] does return the
    normalized reference instant. *)
Theorem C3_parse_relative_time_raises (utcnow T : datetime) :
  is_Ok (parse_relative_time utcnow "Yesterday at 25:00" (Some T)) = false /\
  parse_relative_time T_example "Yesterday at 25:00" (Some T_example) = Raise ValueError /\
  parse_relative_time T_example "99999999999 mins" (Some T_example) = Raise OverflowError /\
  parse_relative_time utcnow "garbage text" (Some T) = _ensure_utc T.
Proof.
  split; [|split; [reflexivity|split; [reflexivity|by_text T]]].
  unfold parse_relative_time. destruct (_ensure_utc T) as [now|e]; [|reflexivity].
  cbv [mbind result_bind].
  change (is_Ok (match datetime_sub now (1 * US_PER_DAY) with
                 | Ok dt => replace_time dt 25 0
                 | Raise e => Raise e
                 end) = false).
  destruct (datetime_sub now (1 * US_PER_DAY)); reflexivity.
Qed.

End TimeFacts.

(** ** The library models on examples *)
Section ModelExamples.
Import PyStr Regex utils_time exporters.

Example search_minutes :
  search _RELATIVE_MINUTES_PATTERN "2 hours 5 mins" = Some [("2", "mins"); ("value", "5")].
Proof. reflexivity. Qed.

Example search_hours_needs_boundary :
  search _RELATIVE_HOURS_PATTERN "2 hoursx" = None /\
  search _RELATIVE_HOURS_PATTERN "7d7h" = Some [("2", "h"); ("value", "7")].
Proof. split; reflexivity. Qed.

Example search_hh_mm :
  search HH_MM_PATTERN "yesterday at 123:456" = Some [("2", "45"); ("1", "23")].
Proof. reflexivity. Qed.

Example search_id_is_case_sensitive :
  search facebook_parser.ID_PATTERN "fbid=999&id=12345" = Some [("1", "999")] /\
  search facebook_parser.ID_PATTERN "ID=5" = None.
Proof. split; reflexivity. Qed.

Example strptime_leap_day :
  strptime "2024-02-29" FMT_ISO_DATE = Ok (mk_datetime (738944 * US_PER_DAY) None) /\
  strptime "2023-02-29" FMT_ISO_DATE = Raise ValueError /\
  strptime "2024-02-29 10:11:60" FMT_ISO_SECONDS = Raise ValueError /\
  strptime " 2024-02-29" FMT_ISO_DATE = Raise ValueError.
Proof. repeat split; reflexivity. Qed.

Example path_suffix_examples :
  path_suffix (Path "a/b.tar.GZ") = ".GZ" /\ path_suffix (Path ".bashrc") = EmptyString /\
  Path "a/./b//c.txt" = ["a"; "b"; "c.txt"] /\ path_parent (Path "x.csv") = [].
Proof. repeat split; reflexivity. Qed.

Example row_text_quotes :
  row_text ["a,b"; "c"] = String DQUOTE ("a,b" +:+ String DQUOTE (",c" +:+ CRLF)) /\
  row_text [EmptyString] = String DQUOTE (String DQUOTE CRLF) /\
  row_text [EmptyString; EmptyString] = "," +:+ CRLF.
Proof. repeat split; reflexivity. Qed.

Example urlparse_plain_examples :
  facebook_parser.urlparse_plain "https://www.facebook.com/profile.php?id=12345&x=1#frag"
    = facebook_parser.mk_ParseResult "/profile.php" "id=12345&x=1" /\
  facebook_parser.urlparse_plain "https://www.facebook.com/a/b;x=1?q"
    = facebook_parser.mk_ParseResult "/a/b" "q".
Proof. split; reflexivity. Qed.

End ModelExamples.

(** ** Patterns *)
Section RegexFacts.
Import PyStr Regex.

Lemma substring_0_0 s : String.substring 0 0 s = EmptyString.
Proof. destruct s; reflexivity. Qed.

Lemma append_cons c s1 s2 : String c s1 +:+ s2 = String c (s1 +:+ s2).
Proof. reflexivity. Qed.

Lemma length_append_ge pre s : (String.length s <= String.length (pre +:+ s))%nat.
Proof.
  induction pre as [|c pre IH]; [change (EmptyString +:+ s) with s; lia|].
  rewrite append_cons. simpl. lia.
Qed.

(** What lies between a position and a later one is the text read. *)
Lemma consumed_append pre s : consumed (pre +:+ s) s = pre.
Proof.
  unfold consumed. induction pre as [|c pre IH].
  - change (EmptyString +:+ s) with s. rewrite Nat.sub_diag. apply substring_0_0.
  - pose proof (length_append_ge pre s).
    rewrite append_cons. simpl String.length.
    replace (S (String.length (pre +:+ s)) - String.length s)%nat
      with (S (String.length (pre +:+ s) - String.length s)) by lia.
    simpl. rewrite IH. reflexivity.
Qed.

(** A greedy repetition hands over to its continuation after a run of
    characters of the class. *)
Lemma star_inv {A} p prev s caps (k : cont) (r : A) :
  star p prev s caps k = Some r ->
  exists pre s' prev',
    s = pre +:+ s' /\ forallb p (list_ascii_of_string pre) = true /\
    k prev' s' caps = Some r.
Proof.
  revert prev. induction s as [|c s IH]; intros prev; simpl.
  - intros H. exists EmptyString, EmptyString, prev. auto.
  - destruct (p c) eqn:Hc.
    + destruct (star p (Some c) s caps k) as [r'|] eqn:Hstar.
      * intros H; inversion H; subst r'.
        destruct (IH _ Hstar) as (pre & s' & prev' & -> & Hpre & Hk).
        exists (String c pre), s', prev'. simpl. rewrite Hc, Hpre. auto.
      * intros H. exists EmptyString, (String c s), prev. auto.
    + intros H. exists EmptyString, (String c s), prev. auto.
Qed.

(** A successful search is a match at some position. *)
Lemma search_from_inv r prev s caps :
  search_from r prev s = Some caps ->
  exists prev' s', run r prev' s' [] (fun _ _ caps => Some caps) = Some caps.
Proof.
  revert prev. induction s as [|c s IH]; intros prev; simpl.
  - destruct (run r prev EmptyString [] _) eqn:Hrun; [|discriminate].
    intros H; inversion H; subst. eauto.
  - destruct (run r prev (String c s) [] _) eqn:Hrun.
    + intros H; inversion H; subst. eauto.
    + apply IH.
Qed.


End RegexFacts.

(** ** The candidate extractor and the orchestrator *)
Section ParserFacts.
Import PyStr Regex facebook_parser.
Context `{E : Env}.

Lemma url_build a u : url (_build_profile_from_anchor a u) = u.
Proof.
  unfold _build_profile_from_anchor.
  repeat match goal with
         | |- context [let '(_, _) := ?e in _] => destruct e
         end.
  reflexivity.
Qed.

Lemma title_build a u : title (_build_profile_from_anchor a u) = text a.
Proof.
  unfold _build_profile_from_anchor.
  repeat match goal with
         | |- context [let '(_, _) := ?e in _] => destruct e
         end.
  reflexivity.
Qed.


(** *** The loop of [_scrape_profile] *)

Lemma collect_None cards profiles seen :
  collect cards None profiles seen = (profiles ++ map build (kept cards seen))%list.
Proof.
  revert profiles seen.
  induction cards as [|a cards IH]; intros profiles seen; simpl.
  - rewrite app_nil_r. reflexivity.
  - unfold card_url. destruct (get a "href") as [href|]; [|apply IH].
    destruct (is_empty href); [apply IH|].
    destruct (decide _); [apply IH|].
    rewrite IH. simpl. rewrite <- app_assoc. reflexivity.
Qed.

(** With a limit [n] the loop stops after the append that brings the
    list to [n] records: from an empty list it takes [n] records, and one
    record when [n <= 0]. *)
Lemma collect_Some cards n profiles seen :
  collect cards (Some n) profiles seen =
  (profiles ++
   take (Z.to_nat (Z.max 1 (n - Z.of_nat (length profiles))))
        (map build (kept cards seen)))%list.
Proof.
  revert profiles seen.
  induction cards as [|a cards IH]; intros profiles seen; simpl.
  - rewrite take_nil, app_nil_r. reflexivity.
  - unfold card_url. destruct (get a "href") as [href|]; [|apply IH].
    destruct (is_empty href); [apply IH|].
    destruct (decide _); [apply IH|].
    set (p := _build_profile_from_anchor a (_normalize_profile_url href)).
    change (map build ((a, _normalize_profile_url href) :: ?l))
      with (p :: map build l).
    rewrite length_app. simpl length.
    destruct (n <=? Z.of_nat (length profiles + 1)) eqn:Hn.
    + apply Z.leb_le in Hn.
      replace (Z.to_nat (Z.max 1 (n - Z.of_nat (length profiles)))) with 1%nat by lia.
      reflexivity.
    + apply Z.leb_gt in Hn. rewrite IH, length_app. simpl length.
      replace (Z.to_nat (Z.max 1 (n - Z.of_nat (length profiles))))
        with (S (Z.to_nat (Z.max 1 (n - Z.of_nat (length profiles + 1))))) by lia.
      simpl. rewrite <- app_assoc. reflexivity.
Qed.

Lemma scrape_soup_None doc : scrape_soup doc None = all_profiles doc.
Proof. unfold scrape_soup. rewrite collect_None. reflexivity. Qed.

Lemma scrape_soup_Some doc n :
  scrape_soup doc (Some n) = take (Z.to_nat (Z.max 1 n)) (all_profiles doc).
Proof.
  unfold scrape_soup. rewrite collect_Some. simpl.
  rewrite Z.sub_0_r. reflexivity.
Qed.

Lemma scrape_soup_prefix doc limit :
  scrape_soup doc limit `prefix_of` all_profiles doc.
Proof.
  destruct limit as [n|].
  - rewrite scrape_soup_Some. apply prefix_take.
  - rewrite scrape_soup_None. reflexivity.
Qed.

(** *** First occurrences *)

Lemma kept_fresh cards seen u :
  u ∈ map snd (kept cards seen) -> u ∉ seen.
Proof.
  revert seen. induction cards as [|a cards IH]; intros seen; simpl.
  - intros H. inversion H.
  - destruct (card_url a) as [v|]; [|apply IH].
    destruct (decide (v ∈ seen)) as [Hv|Hv]; [apply IH|].
    simpl. intros H. apply elem_of_cons in H as [->|H]; [exact Hv|].
    apply IH in H. set_solver.
Qed.






(** A kept anchor is the first of the document with its URL. *)
Lemma kept_first cards seen a u :
  (a, u) ∈ kept cards seen ->
  exists pre post,
    cards = (pre ++ a :: post)%list /\ card_url a = Some u /\
    u ∉ omap card_url pre.
Proof.
  revert seen. induction cards as [|c cards IH]; intros seen; simpl.
  - intros H. inversion H.
  - destruct (card_url c) as [v|] eqn:Hc.
    + destruct (decide (v ∈ seen)) as [Hv|Hv].
      * intros H. pose proof (kept_fresh cards seen u) as Hfresh.
        destruct (IH _ H) as (pre & post & -> & Ha & Hpre).
        exists (c :: pre), post. split; [reflexivity|]. split; [exact Ha|].
        simpl. rewrite Hc. intros Hin. apply elem_of_cons in Hin as [->|Hin]; [|contradiction].
        apply Hfresh; [|exact Hv].
        apply list_elem_of_In, in_map_iff. exists (a, v). split; [reflexivity|].
        apply list_elem_of_In. exact H.
      * intros H. apply elem_of_cons in H as [H|H].
        -- inversion H; subst. exists [], cards. split; [reflexivity|].
           split; [exact Hc|]. simpl. apply not_elem_of_nil.
        -- pose proof (kept_fresh cards (seen ∪ {[v]}) u) as Hfresh.
           destruct (IH _ H) as (pre & post & -> & Ha & Hpre).
           exists (c :: pre), post. split; [reflexivity|]. split; [exact Ha|].
           simpl. rewrite Hc. intros Hin.
           apply elem_of_cons in Hin as [->|Hin]; [|contradiction].
           apply Hfresh; [|set_solver].
           apply list_elem_of_In, in_map_iff. exists (a, v). split; [reflexivity|].
           apply list_elem_of_In. exact H.
    + intros H. destruct (IH _ H) as (pre & post & -> & Ha & Hpre).
      exists (c :: pre), post. split; [reflexivity|]. split; [exact Ha|].
      simpl. rewrite Hc. exact Hpre.
Qed.


(** *** Candidates *)




Lemma elem_of_find_candidate_cards a doc :
  a ∈ _find_candidate_cards doc -> a ∈ doc /\ is_candidate a = true.
Proof.
  unfold _find_candidate_cards, find_all_a_href.
  rewrite !list_elem_of_filter. tauto.
Qed.





(** *** The loop of [scrape] *)

Lemma scrape_loop_records urls acc remaining log :
  (scrape_loop urls acc remaining log).2 =
  match scrape_records urls remaining with
  | Ok recs => Ok (acc ++ recs)
  | Raise e => Raise e
  end.
Proof.
  revert acc remaining log.
  induction urls as [|u urls IH]; intros acc remaining log; simpl.
  - rewrite app_nil_r. reflexivity.
  - destruct (exhausted remaining); simpl; [rewrite app_nil_r; reflexivity|].
    unfold _scrape_profile.
    destruct (fetch (_normalize_profile_url u)) as [doc|exc].
    + rewrite IH. destruct (scrape_records urls _); simpl; [|reflexivity].
      rewrite app_assoc. reflexivity.
    + destruct (is_Exception exc); [apply IH|reflexivity].
Qed.

Lemma scrape_records_eq urls max_items :
  (scrape urls max_items).2 = scrape_records urls max_items.
Proof.
  unfold scrape. rewrite scrape_loop_records.
  destruct (scrape_records urls max_items); reflexivity.
Qed.



Lemma scrape_records_cons u urls remaining :
  scrape_records (u :: urls) remaining =
  if exhausted remaining then Ok []
  else
    match fetch (_normalize_profile_url u) with
    | Raise exc =>
        if is_Exception exc then scrape_records urls remaining else Raise exc
    | Ok doc =>
        rest ← scrape_records urls
                 (match remaining with
                  | Some n => Some (n - Z.of_nat (length (scrape_soup doc remaining)))
                  | None => None
                  end);
        Ok (map to_dict (scrape_soup doc remaining) ++ rest)
    end.
Proof. reflexivity. Qed.












(** C10: an anchor whose text, lower-cased, contains [friends] is not a
    candidate and no record carries such a title, although [/friends] is
    one of the accepted link patterns. *)
Theorem C10_friends_is_filtered (doc : soup) (limit : option Z) :
  "friends" ∈ SKIP_TERMS /\ "/friends" ∈ FOLLOWING_URL_PATTERNS /\
  (forall a, contains "friends" (lower (text a)) = true ->
             a ∉ _find_candidate_cards doc) /\
  (forall r, r ∈ scrape_soup doc limit ->
             contains "friends" (lower (title r)) = false).
Proof.
  assert (Hcand : forall a, a ∈ _find_candidate_cards doc ->
                            contains "friends" (lower (text a)) = false).
  { intros a Ha. apply elem_of_find_candidate_cards in Ha as [_ Ha].
    unfold is_candidate in Ha.
    destruct (negb _); [discriminate|].
    destruct (is_empty (text a)); [discriminate|].
    destruct (existsb _ SKIP_TERMS) eqn:Hskip; [discriminate|].
    destruct (contains "friends" (lower (text a))) eqn:Hf; [|reflexivity].
    assert (Htrue : existsb (fun skip => contains skip (lower (text a))) SKIP_TERMS = true).
    { apply existsb_exists. exists "friends". split; [|exact Hf].
      unfold SKIP_TERMS. simpl. tauto. }
    congruence. }
  split; [unfold SKIP_TERMS; set_solver|].
  split; [unfold FOLLOWING_URL_PATTERNS; set_solver|].
  split.
  - intros a Hf Ha. apply Hcand in Ha. congruence.
  - intros r Hr.
    destruct (scrape_soup_prefix doc limit) as [rest Hall].
    assert (Hin : r ∈ all_profiles doc) by (rewrite Hall; apply elem_of_app; left; exact Hr).
    apply list_elem_of_In, in_map_iff in Hin as ([a u] & <- & Hin).
    apply list_elem_of_In, kept_first in Hin as (pre & post & Hcards & _).
    unfold build; simpl. rewrite title_build. apply Hcand.
    rewrite Hcards. apply elem_of_app. right. left.
Qed.

(** *** The fields of a record *)

Lemma is_empty_false s : is_empty s = false <-> s <> EmptyString.
Proof. destruct s; simpl; split; congruence. Qed.


(** The [username] of a record is the last non-empty segment of the path
    unless the path contains [profile.php]: the test for a numeric segment
    has the same outcome on both sides. *)
Lemma username_build a u :
  username (_build_profile_from_anchor a u) =
  if contains "profile.php" (path (urlparse u)) then None
  else last (nonempty_segments (path (urlparse u))).
Proof.
  unfold _build_profile_from_anchor, nonempty_segments.
  destruct (contains "profile.php" (path (urlparse u))).
  - destruct (search ID_PATTERN _); reflexivity.
  - destruct (last _) as [seg|]; [|reflexivity].
    destruct (fullmatch DIGITS_PATTERN seg); reflexivity.
Qed.




(** Every record comes from an anchor of the document and its URL. *)
Lemma scrape_soup_inv doc limit r :
  r ∈ scrape_soup doc limit ->
  exists a, a ∈ _find_candidate_cards doc /\ card_url a = Some (url r) /\
            r = _build_profile_from_anchor a (url r).
Proof.
  intros Hr.
  destruct (scrape_soup_prefix doc limit) as [rest Hall].
  assert (Hin : r ∈ all_profiles doc) by (rewrite Hall; apply elem_of_app; left; exact Hr).
  apply list_elem_of_In, in_map_iff in Hin as ([a u] & <- & Hin).
  apply list_elem_of_In, kept_first in Hin as (pre & post & Hcards & Ha & _).
  unfold build; simpl. rewrite url_build.
  exists a. split; [|split; [exact Ha|reflexivity]].
  rewrite Hcards. apply elem_of_app. right. left.
Qed.


End ParserFacts.

(** *** The properties on the example documents *)
Section ParserExamples.
Import PyStr Regex facebook_parser.

Lemma doc_example_records :
  @scrape_soup E_example doc_example None =
  [@_build_profile_from_anchor E_example uncut "https://www.facebook.com/UncutMagazine";
   @_build_profile_from_anchor E_example example_profile
     "https://www.facebook.com/example.profile"].
Proof. reflexivity. Qed.






(** C10 on a page named after friends: its anchor matches the pattern
    [facebook.com] and is no candidate, and the one record of the document
    is that of the other anchor. *)
Lemma C10_witness :
  (friends_of_the_earth ∉ _find_candidate_cards [friends_of_the_earth; uncut]) /\
  contains "friends" (lower "Uncut Magazine") = false /\
  @scrape_soup E_example [friends_of_the_earth; uncut] None =
    [@_build_profile_from_anchor E_example uncut "https://www.facebook.com/UncutMagazine"].
Proof.
  destruct (@C10_friends_is_filtered E_example [friends_of_the_earth; uncut] None)
    as (_ & _ & Hcand & Hrec).
  split; [apply Hcand; reflexivity|].
  split; [|reflexivity].
  apply (Hrec (@_build_profile_from_anchor E_example uncut
                 "https://www.facebook.com/UncutMagazine")).
  left.
Defined.

(** C4: the record of a page whose last path segment is the number
    [12345] has the [username] [12345]; for every anchor and URL the
    [username] is the last non-empty segment of the path unless the path
    contains [profile.php], whether that segment is numeric or not. *)
Theorem C4_numeric_segment_has_username :
  username (@_build_profile_from_anchor E_example numbered_page
              "https://www.facebook.com/pages/category/SomePage/12345") = Some "12345" /\
  is_Some (fullmatch DIGITS_PATTERN "12345") /\
  @scrape_soup E_example [numbered_page] None =
    [@_build_profile_from_anchor E_example numbered_page
       "https://www.facebook.com/pages/category/SomePage/12345"] /\
  (forall (E : Env) (a : tag) (u : string),
     username (_build_profile_from_anchor a u) =
     if contains "profile.php" (path (urlparse u)) then None
     else last (nonempty_segments (path (urlparse u)))).
Proof.
  split; [reflexivity|]. split; [eexists; reflexivity|]. split; [reflexivity|].
  intros E a u. apply username_build.
Qed.


End ParserExamples.

(** ** The exporter *)
Section ExportFacts.
Import PyStr exporters.
Context `{S : Serializer}.

Lemma str_le_trans a b c : str_le a b -> str_le b c -> str_le a c.
Proof.
  unfold str_le, String.leb. revert b c.
  induction a as [|x a IH]; intros [|y b] [|z c]; simpl; try congruence.
  unfold Ascii.compare.
  destruct (N.compare_spec (N_of_ascii x) (N_of_ascii y)) as [Hxy|Hxy|Hxy];
    destruct (N.compare_spec (N_of_ascii y) (N_of_ascii z)) as [Hyz|Hyz|Hyz];
    destruct (N.compare_spec (N_of_ascii x) (N_of_ascii z)) as [Hxz|Hxz|Hxz];
    try lia; try congruence.
  apply IH.
Qed.

#[local] Instance str_le_transitive : Transitive str_le.
Proof. intros a b c. apply str_le_trans. Qed.

#[local] Instance str_le_total : Total str_le.
Proof. intros a b. apply String.leb_total. Qed.

(** *** [sorted] *)

Lemma sorted_Permutation (keys : gset string) : sorted keys ≡ₚ elements keys.
Proof. apply merge_sort_Permutation. Qed.

Lemma elem_of_sorted (keys : gset string) k : k ∈ sorted keys <-> k ∈ keys.
Proof. rewrite sorted_Permutation. apply elem_of_elements. Qed.

Lemma sorted_StronglySorted (keys : gset string) : StronglySorted str_le (sorted keys).
Proof. apply StronglySorted_merge_sort; apply _. Qed.

Lemma sorted_NoDup (keys : gset string) : NoDup (sorted keys).
Proof. rewrite sorted_Permutation. apply NoDup_elements. Qed.

Lemma list_to_set_sorted (keys : gset string) : list_to_set (sorted keys) = keys.
Proof. apply set_eq. intros k. rewrite elem_of_list_to_set. apply elem_of_sorted. Qed.

Lemma elem_of_csv_header records k :
  k ∈ csv_header records <-> exists r, r ∈ records /\ is_Some (r !! k).
Proof.
  unfold csv_header. rewrite elem_of_sorted, elem_of_union_list. split.
  - intros (X & HX & Hk). apply list_elem_of_In, in_map_iff in HX as (r & <- & Hr).
    exists r. split; [apply list_elem_of_In, Hr|]. apply elem_of_dom, Hk.
  - intros (r & Hr & Hk). exists (dom r). split; [|apply elem_of_dom, Hk].
    apply list_elem_of_In, in_map_iff. exists r. split; [reflexivity|].
    apply list_elem_of_In, Hr.
Qed.

Lemma dom_subseteq_header records r :
  r ∈ records -> dom r ⊆ (list_to_set (csv_header records) : gset string).
Proof.
  intros Hr k Hk. apply elem_of_list_to_set, elem_of_csv_header.
  exists r. split; [exact Hr|]. apply elem_of_dom, Hk.
Qed.

(** *** The rows *)

Lemma writerow_cells fieldnames r :
  dom r ⊆ (list_to_set fieldnames : gset string) ->
  writerow fieldnames r = Ok (row_text (csv_cells fieldnames r)).
Proof.
  intros Hdom. unfold writerow, _dict_to_list.
  destruct (decide _) as [_|Hn]; [|contradiction].
  cbn [mbind result_bind]. unfold csv_cells. rewrite map_map.
  do 2 f_equal. apply map_ext. intros k. destruct (r !! k); reflexivity.
Qed.

Lemma writeheader_cells fieldnames :
  NoDup fieldnames -> writeheader fieldnames = Ok (row_text fieldnames).
Proof.
  intros Hnd. unfold writeheader. rewrite writerow_cells.
  - do 2 f_equal. unfold csv_cells.
    transitivity (map (fun k : string => k) fieldnames); [|apply map_id].
    apply map_ext_in. intros k Hk.
    assert (Hlook : (list_to_map (map (fun k => (k, PStr k)) fieldnames) : record) !! k
                    = Some (PStr k)).
    { apply elem_of_list_to_map_1.
      - change (map (fun k0 => (k0, PStr k0)) fieldnames).*1
          with (map fst (map (fun k0 => (k0, PStr k0)) fieldnames)).
        rewrite map_map. simpl. rewrite map_id. exact Hnd.
      - apply list_elem_of_In, in_map_iff. exists k. split; [reflexivity|exact Hk]. }
    rewrite Hlook. reflexivity.
  - rewrite dom_list_to_map_L.
    change (map (fun k0 => (k0, PStr k0)) fieldnames).*1
      with (map fst (map (fun k0 => (k0, PStr k0)) fieldnames)).
    rewrite map_map. simpl. rewrite map_id. reflexivity.
Qed.

Lemma append_assoc (a b c : string) : (a +:+ b) +:+ c = a +:+ (b +:+ c).
Proof.
  induction a as [|x a IH]; [reflexivity|].
  change (String x ((a +:+ b) +:+ c) = String x (a +:+ (b +:+ c))). rewrite IH. reflexivity.
Qed.

Lemma append_nil_r (a : string) : a +:+ EmptyString = a.
Proof.
  induction a as [|x a IH]; [reflexivity|].
  change (String x (a +:+ EmptyString) = String x a). rewrite IH. reflexivity.
Qed.

(** *** Actions *)

Lemma bind_Ok {A B} (m : IO A) (f : A -> IO B) w a w' :
  m w = (Ok a, w') -> (m ≫= f) w = f a w'.
Proof. intros H. unfold mbind, IO_bind. rewrite H. reflexivity. Qed.

Lemma succeeds_bind {A B} (m : IO A) (f : A -> IO B) :
  succeeds m -> (forall a, succeeds (f a)) -> succeeds (m ≫= f).
Proof.
  intros Hm Hf w. destruct (Hm w) as (a & w' & H).
  rewrite (bind_Ok _ _ _ _ _ H). apply Hf.
Qed.

Lemma succeeds_ensure_parent_dir p : succeeds (_ensure_parent_dir p).
Proof.
  intros w. unfold _ensure_parent_dir.
  rewrite (bind_Ok _ _ w (is_present (path_parent p) w) (called (EXISTS (path_parent p)) w))
    by reflexivity.
  destruct (negb _); eexists _, _; reflexivity.
Qed.

Lemma ensure_parent_dir_files p w :
  files (_ensure_parent_dir p w).2 = files w /\ (_ensure_parent_dir p w).1 = Ok tt.
Proof.
  unfold _ensure_parent_dir.
  rewrite (bind_Ok _ _ w (is_present (path_parent p) w) (called (EXISTS (path_parent p)) w))
    by reflexivity.
  destruct (negb _); split; reflexivity.
Qed.

Lemma succeeds_write_lines p lines : succeeds (write_lines p lines).
Proof.
  induction lines as [|l lines IH]; intros w; [eexists _, _; reflexivity|].
  simpl. erewrite bind_Ok by reflexivity. apply IH.
Qed.

(** The rows are appended to the file, one line per record. *)
Lemma write_rows_file p fieldnames records w content :
  (forall r, r ∈ records -> dom r ⊆ (list_to_set fieldnames : gset string)) ->
  files w !! p = Some content ->
  exists w',
    write_rows p fieldnames records w = (Ok tt, w') /\
    files w' !! p =
      Some (content +:+ concat_lines (map (fun r => row_text (csv_cells fieldnames r)) records)).
Proof.
  revert w content. induction records as [|r records IH]; intros w content Hdom Hfile.
  - exists w. split; [reflexivity|]. simpl. rewrite append_nil_r. exact Hfile.
  - simpl. rewrite writerow_cells by (apply Hdom; left).
    set (line := row_text (csv_cells fieldnames r)).
    destruct (IH (write p line w).2 (content +:+ line)) as (w' & Hrun & Hw').
    + intros r' Hr'. apply Hdom. right. exact Hr'.
    + unfold write. cbn [snd files called]. rewrite Hfile. apply lookup_insert_eq.
    + exists w'. split.
      * rewrite (bind_Ok _ _ w tt (write p line w).2) by reflexivity. exact Hrun.
      * rewrite Hw', append_assoc. reflexivity.
Qed.

Lemma export_csv_file records p w :
  records <> [] ->
  exists w', _export_csv records p w = (Ok tt, w') /\
             files w' !! p = Some (csv_text records).
Proof.
  intros Hne. unfold _export_csv.
  destruct records as [|r0 records0] eqn:Hrecs; [contradiction|]. rewrite <- Hrecs.
  fold (csv_header records).
  rewrite (bind_Ok _ _ w tt (open_w p w).2) by reflexivity.
  rewrite writeheader_cells by apply sorted_NoDup.
  set (header := row_text (csv_header records)).
  rewrite (bind_Ok _ _ (open_w p w).2 tt (write p header (open_w p w).2).2) by reflexivity.
  destruct (write_rows_file p (csv_header records) records
              (write p header (open_w p w).2).2 header) as (w' & Hrun & Hw').
  - intros r Hr. apply dom_subseteq_header, Hr.
  - unfold write, open_w. cbn [snd files called].
    rewrite !lookup_insert_eq. reflexivity.
  - exists w'. split; [exact Hrun|]. exact Hw'.
Qed.

Lemma succeeds_export_csv records p : succeeds (_export_csv records p).
Proof.
  intros w. destruct records as [|r rest] eqn:Hrecs.
  - eexists _, _; reflexivity.
  - rewrite <- Hrecs.
    destruct (export_csv_file records p w) as (w' & H & _); [congruence|].
    eexists _, _; exact H.
Qed.

Lemma export_data_unfold records output_path output_format :
  export_data records output_path output_format =
  let p := Path output_path in
  let fmt := requested_format output_path output_format in
  if negb (bool_decide (fmt ∈ supported)) then raise ValueError
  else
    log (DEBUG_exporting (length (_normalize_records records)) p fmt) ;;
    _ensure_parent_dir p ;;
    (if String.eqb fmt "json" then _export_json (_normalize_records records) p
     else if String.eqb fmt "jsonl" then _export_jsonl (_normalize_records records) p
     else if String.eqb fmt "csv" then _export_csv (_normalize_records records) p
     else mret tt) ;;
    log (INFO_complete p fmt).
Proof. reflexivity. Qed.

Lemma normalize_records_id records : _normalize_records records = records.
Proof. unfold _normalize_records. apply map_id. Qed.

Lemma succeeds_unit (m : IO unit) w :
  succeeds m -> exists w', m w = (Ok tt, w').
Proof. intros H. destruct (H w) as ([] & w' & Hw). eauto. Qed.

(** C5, as the code has it: [export_data] accepts exactly the formats
    that read [json], [jsonl] or [csv] once lower-cased (the explicit one,
    else the extension of the path, else [json]); for any other format it
    raises [ValueError] and leaves the world as it was: no call to the file
    system, no directory, no file, no line logged. *)
Theorem C5_export_formats (records : list record) (output_path : string)
    (output_format : option string) (w : world) :
  let fmt := requested_format output_path output_format in
  (fmt ∈ ["json"; "jsonl"; "csv"] ->
     exists w', export_data records output_path output_format w = (Ok tt, w')) /\
  (fmt ∉ ["json"; "jsonl"; "csv"] ->
     export_data records output_path output_format w = (Raise ValueError, w)).
Proof.
  intros fmt. rewrite export_data_unfold. cbv zeta. fold fmt. split.
  - intros Hfmt. rewrite bool_decide_eq_true_2 by exact Hfmt. cbn [negb].
    apply succeeds_unit.
    apply succeeds_bind; [intros w0; eexists _, _; reflexivity|intros _].
    apply succeeds_bind; [apply succeeds_ensure_parent_dir|intros _].
    apply succeeds_bind; [|intros _ w0; eexists _, _; reflexivity].
    destruct (String.eqb fmt "json").
    { intros w0. unfold _export_json. erewrite bind_Ok by reflexivity.
      eexists _, _; reflexivity. }
    destruct (String.eqb fmt "jsonl").
    { intros w0. unfold _export_jsonl. erewrite bind_Ok by reflexivity.
      apply succeeds_write_lines. }
    destruct (String.eqb fmt "csv"); [apply succeeds_export_csv|].
    intros w0; eexists _, _; reflexivity.
  - intros Hfmt. rewrite bool_decide_eq_false_2 by exact Hfmt. reflexivity.
Qed.

(** *** The file a CSV export leaves *)

Lemma touch_file p w :
  touch p w = (Ok tt, (touch p w).2) /\
  files (touch p w).2 !! p = Some (default EmptyString (files w !! p)).
Proof.
  split; [reflexivity|]. unfold touch. cbn [snd files called].
  destruct (files w !! p) as [content|] eqn:Hfile; cbn [files].
  - exact Hfile.
  - apply lookup_insert_eq.
Qed.

Lemma export_data_csv records output_path output_format w :
  requested_format output_path output_format = "csv" ->
  export_data records output_path output_format w =
  let p := Path output_path in
  let w1 := (log (DEBUG_exporting (length records) p "csv") w).2 in
  let w2 := (_ensure_parent_dir p w1).2 in
  match _export_csv records p w2 with
  | (Ok _, w3) => log (INFO_complete p "csv") w3
  | (Raise e, w3) => (Raise e, w3)
  end.
Proof.
  intros Hfmt. rewrite export_data_unfold. cbv zeta. rewrite Hfmt, normalize_records_id.
  change (negb (bool_decide ("csv" ∈ supported))) with false. cbv iota.
  change (String.eqb "csv" "json") with false.
  change (String.eqb "csv" "jsonl") with false.
  change (String.eqb "csv" "csv") with true. cbv iota.
  set (p := Path output_path).
  rewrite (bind_Ok _ _ w tt (log (DEBUG_exporting (length records) p "csv") w).2)
    by reflexivity.
  set (w1 := (log (DEBUG_exporting (length records) p "csv") w).2).
  destruct (ensure_parent_dir_files p w1) as [_ Hok].
  rewrite (bind_Ok _ _ w1 tt (_ensure_parent_dir p w1).2)
    by (destruct (_ensure_parent_dir p w1) as [r w2]; simpl in Hok; subst r; reflexivity).
  unfold mbind, IO_bind. destruct (_export_csv records p _) as [[[]|e] w3]; reflexivity.
Qed.

Lemma export_data_csv_files (records : list record) output_path output_format w :
  requested_format output_path output_format = "csv" ->
  files (_ensure_parent_dir (Path output_path)
           (log (DEBUG_exporting (length records) (Path output_path) "csv") w).2).2
  = files w.
Proof.
  intros _. destruct (ensure_parent_dir_files (Path output_path)
    (log (DEBUG_exporting (length records) (Path output_path) "csv") w).2) as [-> _].
  reflexivity.
Qed.

(** C8: an export of no record as CSV over a file an earlier run left
    keeps that file's contents: [touch] does not truncate. In general the
    export of no record returns normally and leaves at the path the file
    that was there, or an empty one; the export of a non-empty list leaves
    the header, which is the sorted union of the keys, and one row per
    record, with an empty cell for a key the record lacks. *)
Theorem C8_csv_zero_records_keeps_file (records : list record) (output_path : string)
    (output_format : option string) (w : world) :
  requested_format output_path output_format = "csv" ->
  files (@export_data json_of_nothing [] "out.csv" None stale_world).2 !! ["out.csv"]
    = Some ("a,b" +:+ CRLF +:+ "1,2" +:+ CRLF) /\
  (exists w', export_data [] output_path output_format w = (Ok tt, w') /\
     files w' !! Path output_path
       = Some (default EmptyString (files w !! Path output_path))) /\
  (records <> [] ->
     exists w', export_data records output_path output_format w = (Ok tt, w') /\
       files w' !! Path output_path = Some (csv_text records)) /\
  StronglySorted str_le (csv_header records) /\
  NoDup (csv_header records) /\
  (forall k, k ∈ csv_header records <-> exists r, r ∈ records /\ is_Some (r !! k)) /\
  (forall r i k,
     csv_header records !! i = Some k -> r !! k = None ->
     csv_cells (csv_header records) r !! i = Some EmptyString).
Proof.
  intros Hfmt. split; [reflexivity|]. split; [|split; [|split; [|split; [|split]]]].
  - rewrite (export_data_csv (@nil record) _ _ _ Hfmt). cbv zeta.
    set (p := Path output_path).
    set (w2 := (_ensure_parent_dir p _).2).
    assert (Hw2 : files w2 = files w) by apply (export_data_csv_files (@nil record) _ _ _ Hfmt).
    destruct (touch_file p w2) as [Hrun Hfile].
    change (_export_csv [] p w2) with (touch p w2). rewrite Hrun.
    eexists. split; [reflexivity|]. cbn [files]. rewrite Hfile, Hw2. reflexivity.
  - intros Hne. rewrite (export_data_csv records _ _ _ Hfmt). cbv zeta.
    set (p := Path output_path).
    set (w2 := (_ensure_parent_dir p _).2).
    destruct (export_csv_file records p w2 Hne) as (w3 & Hrun & Hfile).
    rewrite Hrun. eexists. split; [reflexivity|]. exact Hfile.
  - apply sorted_StronglySorted.
  - apply sorted_NoDup.
  - apply elem_of_csv_header.
  - intros r i k Hi Hk. unfold csv_cells.
    change (map ?f ?l) with (f <$> l). rewrite list_lookup_fmap, Hi. simpl.
    rewrite Hk. reflexivity.
Qed.

End ExportFacts.

(** *** The properties on the example records *)
Section ExportExamples.
Import PyStr exporters.

(** C5 as stated fails: the format [jsonlines] is refused and the format
    [jsonl], which is outside the claimed set, is accepted, as is [JSON]. *)
Lemma C5_counterexample :
  @export_data json_of_nothing [] "out.txt" (Some "jsonlines") empty_world
    = (Raise ValueError, empty_world) /\
  (@export_data json_of_nothing [] "out.txt" (Some "jsonl") empty_world).1 = Ok tt /\
  (@export_data json_of_nothing [] "out.txt" (Some "JSON") empty_world).1 = Ok tt.
Proof. repeat split; reflexivity. Qed.

(** C5 on examples: [out.JSONL] with no explicit format is accepted, the
    explicit format [xml] is refused and nothing is touched. *)
Lemma C5_witness :
  (exists w', @export_data json_of_nothing [] "out.JSONL" None empty_world = (Ok tt, w')) /\
  @export_data json_of_nothing records_example "data/out.csv" (Some "xml") empty_world
    = (Raise ValueError, empty_world).
Proof.
  destruct (@C5_export_formats json_of_nothing [] "out.JSONL" None empty_world)
    as [Hok _].
  destruct (@C5_export_formats json_of_nothing records_example "data/out.csv"
              (Some "xml") empty_world) as [_ Hbad].
  split.
  - apply Hok. right; left.
  - apply Hbad. apply (proj1 (bool_decide_eq_false _)). reflexivity.
Defined.

(** C8 on the spec's example: [{"a": 1}] and [{"b": 2}] give the header
    [a,b] and the rows [1,] and [,2]; no record gives an empty file where
    there was none. *)
Lemma C8_witness :
  (exists w',
     @export_data json_of_nothing records_example "out.csv" None empty_world = (Ok tt, w') /\
     files w' !! ["out.csv"] =
       Some ("a,b" +:+ CRLF +:+ "1," +:+ CRLF +:+ ",2" +:+ CRLF)) /\
  (exists w',
     @export_data json_of_nothing [] "out.csv" None empty_world = (Ok tt, w') /\
     files w' !! ["out.csv"] = Some EmptyString) /\
  csv_header records_example = ["a"; "b"].
Proof.
  destruct (@C8_csv_zero_records_keeps_file json_of_nothing records_example "out.csv"
              None empty_world eq_refl)
    as (_ & Hzero & Hrows & _ & _ & _ & _).
  split; [|split; [exact Hzero|reflexivity]].
  apply Hrows. discriminate.
Defined.

End ExportExamples.

(** * Further properties *)

(** ** Groups of digits *)
Section DigitFacts.
Import PyStr Regex utils_time.

Lemma group_cons_ne name name' v caps :
  name' <> name -> group name ((name', v) :: caps) = group name caps.
Proof.
  intros Hne. simpl. destruct (String.eqb_spec name' name); [contradiction|reflexivity].
Qed.

(** Matching a pattern only adds groups of its own names. *)
Lemma run_inv {A} r prev s caps (k : cont) (res : A) :
  run r prev s caps k = Some res ->
  exists prev' s' caps',
    k prev' s' caps' = Some res /\
    forall name, name ∉ names r -> group name caps' = group name caps.
Proof.
  revert prev s caps k.
  induction r as [|p|r1 IH1 r2 IH2|r1 IH1 r2 IH2|p|name r1 IH1|];
    intros prev s caps k; simpl.
  - intros H. eauto.
  - destruct s as [|c s]; [discriminate|]. destruct (p c); [|discriminate]. intros H. eauto.
  - intros H. apply IH1 in H as (prev1 & s1 & caps1 & H & Hg1).
    apply IH2 in H as (prev2 & s2 & caps2 & H & Hg2).
    exists prev2, s2, caps2. split; [exact H|].
    intros name Hn. rewrite Hg2, Hg1; [reflexivity| |]; set_solver.
  - destruct (run r1 prev s caps k) as [a|] eqn:H1.
    + intros H; inversion H; subst a.
      apply IH1 in H1 as (prev1 & s1 & caps1 & H1 & Hg1).
      exists prev1, s1, caps1. split; [exact H1|]. intros name Hn. apply Hg1. set_solver.
    + intros H. apply IH2 in H as (prev2 & s2 & caps2 & H & Hg2).
      exists prev2, s2, caps2. split; [exact H|]. intros name Hn. apply Hg2. set_solver.
  - intros H. apply star_inv in H as (pre & s' & prev' & _ & _ & H). eauto.
  - intros H. apply IH1 in H as (prev1 & s1 & caps1 & H & Hg1).
    exists prev1, s1, ((name, consumed s s1) :: caps1). split; [exact H|].
    intros name' Hn. rewrite group_cons_ne by set_solver. apply Hg1. set_solver.
  - destruct (at_boundary prev s); [|discriminate]. intros H. eauto.
Qed.

(** The group [value] of a pattern [(?P<value>\d+)...] is a non-empty run
    of digits. *)
Lemma value_group_digits rest s m :
  "value" ∉ names rest ->
  search (Cat (Group "value" (plus is_digit)) rest) s = Some m ->
  group "value" m <> EmptyString /\ all_digits (group "value" m).
Proof.
  intros Hrest H. apply search_from_inv in H as (prev & s0 & H).
  cbn [run plus] in H.
  destruct s0 as [|c s0]; [discriminate H|].
  destruct (is_digit c) eqn:Hc; [|discriminate H].
  apply star_inv in H as (pre & s' & prev' & -> & Hpre & H).
  apply run_inv in H as (prev2 & s2 & caps2 & H & Hg).
  inversion H; subst m; clear H.
  rewrite (Hg "value" Hrest).
  change (String c (pre +:+ s')) with (String c pre +:+ s').
  cbn [group]. rewrite String.eqb_refl, consumed_append.
  split; [discriminate|]. unfold all_digits. simpl. rewrite Hc, Hpre. reflexivity.
Qed.

Lemma digit_value_range c : is_digit c = true -> 0 <= digit_value c <= 9.
Proof.
  unfold is_digit, in_range, Ascii.leb, Ascii.compare, digit_value.
  change (N_of_ascii "0") with 48%N. change (N_of_ascii "9") with 57%N.
  destruct (N.compare_spec 48 (N_of_ascii c));
    destruct (N.compare_spec (N_of_ascii c) 57); simpl; try discriminate; lia.
Qed.

Lemma int_acc_nonneg s acc : all_digits s -> 0 <= acc -> 0 <= int_acc acc s.
Proof.
  unfold all_digits. revert acc. induction s as [|c s IH]; intros acc Hs Hacc; simpl in *.
  - exact Hacc.
  - apply andb_true_iff in Hs as [Hc Hs]. apply IH; [exact Hs|].
    pose proof (digit_value_range c Hc). lia.
Qed.

Lemma int_nonneg s : all_digits s -> 0 <= int s.
Proof. intros H. apply int_acc_nonneg; [exact H|lia]. Qed.

Lemma minutes_value s m :
  search _RELATIVE_MINUTES_PATTERN s = Some m -> 0 <= int (group "value" m).
Proof.
  intros H. apply value_group_digits in H as [_ H]; [apply int_nonneg, H|].
  simpl. set_solver.
Qed.

Lemma hours_value s m :
  search _RELATIVE_HOURS_PATTERN s = Some m -> 0 <= int (group "value" m).
Proof.
  intros H. apply value_group_digits in H as [_ H]; [apply int_nonneg, H|].
  simpl. set_solver.
Qed.

Lemma days_value s m :
  search _RELATIVE_DAYS_PATTERN s = Some m -> 0 <= int (group "value" m).
Proof.
  intros H. apply value_group_digits in H as [_ H]; [apply int_nonneg, H|].
  simpl. set_solver.
Qed.



Lemma lang_digit t : lang digit t -> exists c, t = String c EmptyString /\ is_digit c = true.
Proof. intros H. exact H. Qed.



End DigitFacts.

(** ** More on the time normalizer *)
Section MoreTimeFacts.
Import PyStr Regex utils_time.


(** Subtracting a count of units that is not negative gives an instant
    that is not later. *)
Lemma sub_units_instant now (n unit : Z) r :
  tzinfo now = utc -> 0 <= n -> 0 <= unit ->
  (delta ← timedelta_us (n * unit); datetime_sub now delta) = Ok r ->
  instant r = wall now - n * unit /\ instant r <= wall now.
Proof.
  intros Htz Hn Hunit. unfold timedelta_us.
  destruct (_ && _); cbn [mbind result_bind]; [|discriminate].
  unfold datetime_sub. destruct (wall_in_range _); [|discriminate].
  intros H; inversion H; subst r; clear H.
  unfold instant. cbn [wall tzinfo]. rewrite Htz. simpl. split; nia.
Qed.

(** A relative form never gives an instant after the reference instant:
    a now-token gives the reference, [yesterday] a time of the day before,
    and the counts of minutes, hours and days are not negative. *)
Theorem relative_forms_not_in_future utcnow text T r :
  relative_form (lower (strip text)) ->
  parse_relative_time utcnow text (Some T) = Ok r ->
  instant r <= instant T.
Proof.
  intros Hrel. unfold parse_relative_time.
  destruct (_ensure_utc T) as [now|e] eqn:Hnow; cbn [mbind result_bind]; [|discriminate].
  pose proof (ensure_utc_wall _ _ Hnow) as Hwall.
  pose proof (ensure_utc_tzinfo _ _ Hnow) as Htz.
  rewrite <- Hwall. clear Hnow Hwall.
  set (s := lower (strip text)) in *.
  destruct (bool_decide (s ∈ ["just now"; "now"])) eqn:Htok.
  { intros H; inversion H; subst r. unfold instant. rewrite Htz. simpl. lia. }
  destruct (startswith s "yesterday") eqn:Hy.
  { change (timedelta_days 1) with (@Ok Z US_PER_DAY).
    cbn [mbind result_bind]. unfold datetime_sub.
    destruct (wall_in_range (wall now - US_PER_DAY)); cbn [mbind result_bind]; [|discriminate].
    destruct (search HH_MM_PATTERN s) as [m|].
    - unfold replace_time. cbn [wall tzinfo].
      destruct (_ && _) eqn:Hok; [|discriminate].
      intros H; inversion H; subst r; clear H.
      apply andb_true_iff in Hok as [Hok Hmi]. apply andb_true_iff in Hok as [Hok _].
      apply andb_true_iff in Hok as [_ Hh]. apply Z.leb_le in Hh, Hmi.
      unfold instant. cbn [wall tzinfo]. rewrite Htz. simpl.
      unfold US_PER_DAY, US_PER_HOUR, US_PER_MINUTE, US_PER_SECOND in *.
      Z.div_mod_to_equations. lia.
    - intros H; inversion H; subst r; clear H.
      unfold instant. cbn [wall tzinfo]. rewrite Htz. simpl.
      unfold US_PER_DAY, US_PER_HOUR, US_PER_MINUTE, US_PER_SECOND. lia. }
  destruct (search _RELATIVE_MINUTES_PATTERN s) as [m|] eqn:Hmin.
  { intros H. apply (sub_units_instant now _ US_PER_MINUTE) in H; [tauto|exact Htz| |].
    - apply (minutes_value s m Hmin).
    - unfold US_PER_MINUTE, US_PER_SECOND. lia. }
  destruct (search _RELATIVE_HOURS_PATTERN s) as [m|] eqn:Hhour.
  { intros H. apply (sub_units_instant now _ US_PER_HOUR) in H; [tauto|exact Htz| |].
    - apply (hours_value s m Hhour).
    - unfold US_PER_HOUR, US_PER_MINUTE, US_PER_SECOND. lia. }
  destruct (search _RELATIVE_DAYS_PATTERN s) as [m|] eqn:Hday.
  { intros H. apply (sub_units_instant now _ US_PER_DAY) in H; [tauto|exact Htz| |].
    - apply (days_value s m Hday).
    - unfold US_PER_DAY, US_PER_HOUR, US_PER_MINUTE, US_PER_SECOND. lia. }
  apply bool_decide_eq_false in Htok.
  destruct Hrel as [Hrel|[Hrel|[[? Hrel]|[[? Hrel]|[? Hrel]]]]]; congruence.
Qed.

(** ["2 hours ago"] read at [T_example] is two hours before it. *)
Lemma relative_forms_not_in_future_witness :
  instant (mk_datetime (instant T_example - 2 * US_PER_HOUR) utc) <= instant T_example.
Proof.
  apply (relative_forms_not_in_future T_example "2 hours ago" T_example).
  - right; right; right; left. eexists; reflexivity.
  - reflexivity.
Defined.



(** For the relative forms letter case and surrounding blanks are not
    read: two texts with the same stripped, lower-cased reading that is a
    relative form give the same result. *)
Theorem relative_forms_ignore_case_and_blanks utcnow text1 text2 now :
  lower (strip text1) = lower (strip text2) ->
  relative_form (lower (strip text1)) ->
  parse_relative_time utcnow text1 now = parse_relative_time utcnow text2 now.
Proof.
  intros Heq Hrel. unfold parse_relative_time. rewrite <- Heq.
  set (s := lower (strip text1)) in *.
  destruct (match now with Some n => _ensure_utc n | None => Ok utcnow end) as [now'|e];
    cbn [mbind result_bind]; [|reflexivity].
  destruct (bool_decide (s ∈ ["just now"; "now"])) eqn:Htok; [reflexivity|].
  destruct (startswith s "yesterday") eqn:Hy; [reflexivity|].
  destruct (search _RELATIVE_MINUTES_PATTERN s) eqn:Hmin; [reflexivity|].
  destruct (search _RELATIVE_HOURS_PATTERN s) eqn:Hhour; [reflexivity|].
  destruct (search _RELATIVE_DAYS_PATTERN s) eqn:Hday; [reflexivity|].
  apply bool_decide_eq_false in Htok.
  destruct Hrel as [Hrel|[Hrel|[[? Hrel]|[[? Hrel]|[? Hrel]]]]]; congruence.
Qed.

(** ["  5 MINS "] reads as ["5 mins"]. *)
Lemma relative_forms_ignore_case_and_blanks_witness :
  parse_relative_time T_example "  5 MINS " (Some T_example) =
  parse_relative_time T_example "5 mins" (Some T_example).
Proof.
  apply relative_forms_ignore_case_and_blanks.
  - reflexivity.
  - right; right; left. eexists; reflexivity.
Defined.

(** Normalizing a [datetime] of the valid range keeps its instant and
    labels it UTC, and normalizing the result again changes nothing. *)
Theorem ensure_utc_idempotent dt r :
  wall_in_range (wall dt) = true -> _ensure_utc dt = Ok r ->
  _ensure_utc r = Ok r /\ instant r = instant dt /\ tzinfo r = utc.
Proof.
  intros Hwf H.
  pose proof (ensure_utc_wall _ _ H) as Hwall.
  pose proof (ensure_utc_tzinfo _ _ H) as Htz.
  assert (Hr : wall_in_range (wall r) = true).
  { revert H. unfold _ensure_utc, astimezone_utc.
    destruct (tzinfo dt) as [off|].
    - destruct (wall_in_range (wall dt - off)) eqn:Hin; [|discriminate].
      intros H; inversion H; subst r. exact Hin.
    - intros H; inversion H; subst r. exact Hwf. }
  split; [|split; [|exact Htz]].
  - unfold _ensure_utc, astimezone_utc. rewrite Htz. unfold utc.
    rewrite Z.sub_0_r, Hr. destruct r as [w tz]. simpl in *. subst tz. reflexivity.
  - unfold instant at 1. rewrite Htz, Hwall. simpl. lia.
Qed.

(** A reading of 07:00 at UTC+2 is 05:00 UTC, and stays so. *)
Lemma ensure_utc_idempotent_witness :
  _ensure_utc (mk_datetime (instant T_example) utc) = Ok (mk_datetime (instant T_example) utc) /\
  instant (mk_datetime (instant T_example) utc) =
    instant (mk_datetime (instant T_example + 2 * US_PER_HOUR) (Some (2 * US_PER_HOUR))).
Proof.
  destruct (ensure_utc_idempotent
              (mk_datetime (instant T_example + 2 * US_PER_HOUR) (Some (2 * US_PER_HOUR)))
              (mk_datetime (instant T_example) utc) eq_refl eq_refl) as (H1 & H2 & _).
  split; [exact H1|exact H2].
Defined.

End MoreTimeFacts.

(** ** More on the extractor and the orchestrator *)
Section MoreParserFacts.
Import PyStr Regex facebook_parser.
Context `{E : Env}.

(** Every record of a page scrape comes from an anchor of the document
    whose [href] contains one of the link patterns; its title is the text
    of that anchor, which is not empty and contains none of the navigation
    terms, whatever the case; its URL is the normalized [href]. *)
Theorem records_pass_the_filter (doc : soup) (limit : option Z) (r : FollowingProfile) :
  r ∈ scrape_soup doc limit ->
  title r <> EmptyString /\
  (forall term, term ∈ SKIP_TERMS -> contains term (lower (title r)) = false) /\
  exists a href,
    a ∈ doc /\ get a "href" = Some href /\ title r = text a /\
    url r = _normalize_profile_url href /\
    exists pattern, pattern ∈ FOLLOWING_URL_PATTERNS /\ contains pattern href = true.
Proof.
  intros Hr. apply scrape_soup_inv in Hr as (a & Ha & Hurl & Hbuild).
  apply elem_of_find_candidate_cards in Ha as [Hdoc Hcand].
  assert (Htitle : title r = text a) by (rewrite Hbuild; apply title_build).
  unfold card_url in Hurl. unfold is_candidate in Hcand.
  destruct (get a "href") as [href|] eqn:Hget; [|discriminate Hurl].
  destruct (is_empty href); [discriminate Hurl|]. injection Hurl as Hu.
  change (default EmptyString (Some href)) with href in Hcand.
  destruct (existsb (fun pattern => contains pattern href) FOLLOWING_URL_PATTERNS) eqn:Hpat;
    cbn [negb] in Hcand; [|discriminate Hcand].
  destruct (is_empty (text a)) eqn:Htext; [discriminate Hcand|].
  destruct (existsb _ SKIP_TERMS) eqn:Hskip; [discriminate Hcand|].
  rewrite Htitle. split; [apply is_empty_false, Htext|]. split.
  - intros term Hterm.
    destruct (contains term (lower (text a))) eqn:Hc; [|reflexivity].
    assert (existsb (fun skip => contains skip (lower (text a))) SKIP_TERMS = true).
    { apply existsb_exists. exists term. split; [apply list_elem_of_In, Hterm|exact Hc]. }
    congruence.
  - exists a, href. repeat split; try assumption; try reflexivity.
    + symmetry. exact Hu.
    + apply existsb_exists in Hpat as (pattern & Hin & Hc).
      exists pattern. split; [apply list_elem_of_In, Hin|exact Hc].
Qed.


Lemma normalize_absolute u :
  startswith u "http://" || startswith u "https://" = true ->
  _normalize_profile_url u = u.
Proof. intros H. unfold _normalize_profile_url. rewrite H. reflexivity. Qed.

Lemma normalize_protocol_relative u :
  startswith u "http://" || startswith u "https://" = false ->
  startswith u "//" = true ->
  _normalize_profile_url u = "https:" +:+ u.
Proof. intros H1 H2. unfold _normalize_profile_url. rewrite H1, H2. reflexivity. Qed.

(** An absolute or protocol-relative link is normalized to an absolute
    URL, on which normalizing again changes nothing. *)
Theorem normalize_absolute_idempotent (u : string) :
  startswith u "http://" || startswith u "https://" || startswith u "//" = true ->
  _normalize_profile_url (_normalize_profile_url u) = _normalize_profile_url u /\
  startswith (_normalize_profile_url u) "http://"
    || startswith (_normalize_profile_url u) "https://" = true.
Proof.
  intros H.
  destruct (startswith u "http://" || startswith u "https://") eqn:Habs.
  - rewrite !(normalize_absolute u Habs). split; [reflexivity|exact Habs].
  - simpl in H. rewrite (normalize_protocol_relative u Habs H).
    assert (Hs : startswith ("https:" +:+ u) "http://"
                 || startswith ("https:" +:+ u) "https://" = true).
    { apply orb_true_iff. right. exact H. }
    rewrite (normalize_absolute _ Hs). split; [reflexivity|exact Hs].
Qed.

(** An error that is no [Exception] is not caught: when the fetch of a
    URL raises one, and the URLs before it raised at most [Exception]s, an
    uncapped [scrape] raises it and returns no record. *)
Theorem scrape_propagates_base_exceptions (pre post : list string) (u : string) (e : pyexc) :
  (forall u' e', u' ∈ pre -> fetch (_normalize_profile_url u') = Raise e' ->
                 is_Exception e' = true) ->
  fetch (_normalize_profile_url u) = Raise e ->
  is_Exception e = false ->
  (scrape (pre ++ u :: post) None).2 = Raise e.
Proof.
  intros Hpre Hu He. rewrite scrape_records_eq.
  induction pre as [|u' pre IH].
  - simpl app. rewrite scrape_records_cons, Hu, He. reflexivity.
  - change ((u' :: pre) ++ u :: post) with (u' :: (pre ++ u :: post)).
    rewrite scrape_records_cons. cbn [exhausted].
    assert (IH' : scrape_records (pre ++ u :: post) None = Raise e).
    { apply IH. intros v e' Hv. apply Hpre. right. exact Hv. }
    destruct (fetch (_normalize_profile_url u')) as [doc|exc] eqn:Hfetch.
    + rewrite IH'. reflexivity.
    + rewrite (Hpre u' exc ltac:(left) Hfetch). exact IH'.
Qed.

End MoreParserFacts.

Section MoreParserExamples.
Import PyStr Regex facebook_parser.

(** On [doc_example] the first record is that of the first anchor. *)
Lemma records_pass_the_filter_witness :
  contains "log in" (lower "Uncut Magazine") = false /\ "Uncut Magazine" <> EmptyString.
Proof.
  destruct (@records_pass_the_filter E_example doc_example None
              (@_build_profile_from_anchor E_example uncut
                 "https://www.facebook.com/UncutMagazine"))
    as (Hne & Hskip & _).
  { rewrite doc_example_records. left. }
  split; [|exact Hne].
  apply (Hskip "log in"). unfold SKIP_TERMS. set_solver.
Defined.


Lemma normalize_absolute_idempotent_witness :
  @_normalize_profile_url E_example "//www.facebook.com/UncutMagazine"
    = "https://www.facebook.com/UncutMagazine" /\
  @_normalize_profile_url E_example
    (@_normalize_profile_url E_example "//www.facebook.com/UncutMagazine")
    = @_normalize_profile_url E_example "//www.facebook.com/UncutMagazine".
Proof.
  destruct (@normalize_absolute_idempotent E_example "//www.facebook.com/UncutMagazine" eq_refl)
    as [Hid _].
  split; [reflexivity|exact Hid].
Defined.

(** The second of three URLs is interrupted: nothing is returned, not
    even the records of the first. *)
Lemma scrape_propagates_base_exceptions_witness :
  (@scrape E_interrupted
     ["https://www.facebook.com/first"; "https://www.facebook.com/stop";
      "https://www.facebook.com/second"] None).2 = Raise KeyboardInterrupt.
Proof.
  apply (@scrape_propagates_base_exceptions E_interrupted
           ["https://www.facebook.com/first"] ["https://www.facebook.com/second"]
           "https://www.facebook.com/stop" KeyboardInterrupt).
  - intros u' e' Hin. apply elem_of_cons in Hin as [-> | Hin]; [|inversion Hin].
    intros H. discriminate H.
  - reflexivity.
  - reflexivity.
Defined.

End MoreParserExamples.

(** ** More on the exporter *)
Section MoreExportFacts.
Import PyStr exporters.
Context `{S : Serializer}.

(** *** What the JSON exports leave *)



Lemma files_before_export (records : list record) p fmt w :
  files (_ensure_parent_dir p (log (DEBUG_exporting (length records) p fmt) w).2).2 = files w.
Proof.
  destruct (ensure_parent_dir_files p
              (log (DEBUG_exporting (length records) p fmt) w).2) as [-> _].
  reflexivity.
Qed.


(** *** What an export leaves alone *)























(** A CSV export of the same records in another order writes the same
    header line, and under it the same row for each record, in the order
    the records are given. *)
Theorem csv_rows_follow_the_records (records1 records2 : list record)
    (output_path : string) (output_format : option string) (w : world) :
  requested_format output_path output_format = "csv" ->
  records1 <> [] -> records1 ≡ₚ records2 ->
  let row := fun r => row_text (csv_cells (csv_header records1) r) in
  exists w1 w2,
    export_data records1 output_path output_format w = (Ok tt, w1) /\
    export_data records2 output_path output_format w = (Ok tt, w2) /\
    files w1 !! Path output_path =
      Some (row_text (csv_header records1) +:+ concat_lines (map row records1)) /\
    files w2 !! Path output_path =
      Some (row_text (csv_header records1) +:+ concat_lines (map row records2)).
Proof.
  intros Hfmt Hne Hperm row.
  assert (Hne2 : records2 <> []).
  { intros ->. apply Permutation_nil_r in Hperm. contradiction. }
  assert (Hheader : csv_header records2 = csv_header records1).
  { unfold csv_header. f_equal. apply set_eq. intros k.
    rewrite !elem_of_union_list. split; intros (X & HX & Hk); exists X; split; auto.
    - apply list_elem_of_In in HX. apply list_elem_of_In.
      apply (Permutation_in _ (Permutation_map dom (Permutation_sym Hperm)) HX).
    - apply list_elem_of_In in HX. apply list_elem_of_In.
      apply (Permutation_in _ (Permutation_map dom Hperm) HX). }
  rewrite !(export_data_csv _ _ _ _ Hfmt). cbv zeta.
  set (p := Path output_path).
  destruct (export_csv_file records1 p
              (_ensure_parent_dir p (log (DEBUG_exporting (length records1) p "csv") w).2).2
              Hne) as (w1 & Hrun1 & Hfile1).
  destruct (export_csv_file records2 p
              (_ensure_parent_dir p (log (DEBUG_exporting (length records2) p "csv") w).2).2
              Hne2) as (w2 & Hrun2 & Hfile2).
  rewrite Hrun1, Hrun2.
  eexists _, _.
  split; [reflexivity|]. split; [reflexivity|].
  split; [exact Hfile1|].
  cbn [files log]. rewrite Hfile2. unfold csv_text. rewrite Hheader. reflexivity.
Qed.

End MoreExportFacts.

Section MoreExportExamples.
Import PyStr exporters.



(** The two records of the example, in both orders, to [out.csv]. *)
Lemma csv_rows_follow_the_records_witness :
  exists w1 w2,
    @export_data json_of_nothing records_example "out.csv" None empty_world = (Ok tt, w1) /\
    @export_data json_of_nothing (rev records_example) "out.csv" None empty_world
      = (Ok tt, w2) /\
    files w1 !! ["out.csv"] =
      Some ("a,b" +:+ CRLF +:+ "1," +:+ CRLF +:+ ",2" +:+ CRLF) /\
    files w2 !! ["out.csv"] =
      Some ("a,b" +:+ CRLF +:+ ",2" +:+ CRLF +:+ "1," +:+ CRLF).
Proof.
  destruct (@csv_rows_follow_the_records json_of_nothing records_example
              (rev records_example) "out.csv" None empty_world)
    as (w1 & w2 & H1 & H2 & Hf1 & Hf2).
  - reflexivity.
  - discriminate.
  - apply perm_swap.
  - exists w1, w2. repeat split; assumption.
Defined.

End MoreExportExamples.

(** ** The runner *)

Section StripFacts.
Import PyStr.

Lemma rev_app_spec s acc : String.rev_app s acc = String.rev s +:+ acc.
Proof.
  unfold String.rev. revert acc.
  induction s as [|c s IH]; intros acc; [reflexivity|].
  cbn [String.rev_app]. rewrite (IH (String c acc)), (IH (String c EmptyString)), append_assoc.
  reflexivity.
Qed.

Lemma rev_cons c s : String.rev (String c s) = String.rev s +:+ String c EmptyString.
Proof. unfold String.rev at 1. cbn [String.rev_app]. apply rev_app_spec. Qed.

Lemma rev_append s t : String.rev (s +:+ t) = String.rev t +:+ String.rev s.
Proof.
  induction s as [|c s IH].
  - change (EmptyString +:+ t) with t. symmetry. apply append_nil_r.
  - rewrite append_cons, !rev_cons, IH, append_assoc. reflexivity.
Qed.

Lemma rev_involutive s : String.rev (String.rev s) = s.
Proof.
  induction s as [|c s IH]; [reflexivity|].
  rewrite rev_cons, rev_append, IH. reflexivity.
Qed.

Lemma lstrip_decompose p s :
  exists pre, s = pre +:+ lstrip_by p s /\
              forallb p (list_ascii_of_string pre) = true.
Proof.
  induction s as [|c s (pre & Hs & Hpre)]; [exists EmptyString; split; reflexivity|].
  cbn [lstrip_by]. destruct (p c) eqn:Hc.
  - exists (String c pre). split; [rewrite append_cons; congruence|].
    cbn [list_ascii_of_string forallb]. rewrite Hc. exact Hpre.
  - exists EmptyString. split; reflexivity.
Qed.

Lemma lstrip_all p pre s :
  forallb p (list_ascii_of_string pre) = true -> lstrip_by p (pre +:+ s) = lstrip_by p s.
Proof.
  induction pre as [|c pre IH]; [reflexivity|].
  cbn [list_ascii_of_string forallb]. intros [Hc Hpre]%andb_prop.
  rewrite append_cons. cbn [lstrip_by]. rewrite Hc. auto.
Qed.

Lemma lstrip_lstrip p s : lstrip_by p (lstrip_by p s) = lstrip_by p s.
Proof.
  induction s as [|c s IH]; [reflexivity|].
  cbn [lstrip_by]. destruct (p c) eqn:Hc; [exact IH|].
  cbn [lstrip_by]. rewrite Hc. reflexivity.
Qed.

Lemma lstrip_append p s t :
  lstrip_by p s <> EmptyString -> lstrip_by p (s +:+ t) = lstrip_by p s +:+ t.
Proof.
  induction s as [|c s IH]; [contradiction|].
  rewrite append_cons. cbn [lstrip_by]. destruct (p c); [exact IH|reflexivity].
Qed.

Lemma lstrip_append_nil p s t :
  lstrip_by p s = EmptyString -> lstrip_by p (s +:+ t) = lstrip_by p t.
Proof.
  induction s as [|c s IH]; [reflexivity|].
  rewrite append_cons. cbn [lstrip_by]. destruct (p c); [exact IH|discriminate].
Qed.

(** A prefix of a text that starts clean starts clean. *)
Lemma lstrip_fixed_prefix p a b :
  a <> EmptyString -> lstrip_by p (a +:+ b) = a +:+ b -> lstrip_by p a = a.
Proof.
  destruct a as [|c a]; [contradiction|]. intros _.
  rewrite append_cons. cbn [lstrip_by]. destruct (p c) eqn:Hc; [|reflexivity].
  intros H. exfalso.
  destruct (lstrip_decompose p (a +:+ b)) as (pre & Hs & _).
  apply (f_equal String.length) in Hs. rewrite H in Hs.
  pose proof (length_append_ge pre (String c (a +:+ b))) as Hlen.
  rewrite <- Hs in Hlen. cbn [String.length] in Hlen. lia.
Qed.

Lemma rev_nil_inv s : String.rev s = EmptyString -> s = EmptyString.
Proof. intros H. rewrite <- (rev_involutive s), H. reflexivity. Qed.

Lemma strip_snoc s c :
  is_space c = true -> strip (s +:+ String c EmptyString) = strip s.
Proof.
  intros Hc. unfold strip, rstrip_by.
  destruct (lstrip_by is_space s) as [|x xs] eqn:Hx.
  - rewrite lstrip_append_nil by exact Hx. cbn [lstrip_by]. rewrite Hc. reflexivity.
  - rewrite lstrip_append by (rewrite Hx; discriminate). rewrite Hx.
    rewrite rev_append.
    change (String.rev (String c EmptyString)) with (String c EmptyString).
    rewrite append_cons. cbn [lstrip_by]. rewrite Hc. reflexivity.
Qed.

Lemma strip_idempotent s : strip (strip s) = strip s.
Proof.
  unfold strip, rstrip_by.
  set (x := lstrip_by is_space s).
  set (y := lstrip_by is_space (String.rev x)).
  assert (Hx : lstrip_by is_space x = x) by apply lstrip_lstrip.
  assert (Hy : lstrip_by is_space y = y) by apply lstrip_lstrip.
  assert (Hu : lstrip_by is_space (String.rev y) = String.rev y).
  { destruct (lstrip_decompose is_space (String.rev x)) as (pre & Hrev & _).
    fold y in Hrev.
    destruct (String.rev y) as [|c u] eqn:Hry; [reflexivity|].
    apply (lstrip_fixed_prefix is_space _ (String.rev pre)); [discriminate|].
    rewrite <- Hry, <- rev_append, <- Hrev, rev_involutive. exact Hx. }
  rewrite Hu, rev_involutive, Hy. reflexivity.
Qed.

End StripFacts.

Section InputFacts.
Import PyStr exporters runner.

Lemma translate_newlines_join f a b :
  translate_newlines f (a +:+ String LF b)
    = translate_newlines f a +:+ String LF (translate_newlines false b) \/
  (f = true /\ a = EmptyString) \/
  exists a', translate_newlines f a = a' +:+ String LF EmptyString /\
             translate_newlines f (a +:+ String LF b)
               = translate_newlines f a +:+ translate_newlines false b.
Proof.
  revert f. induction a as [|c a IH]; intros f.
  - destruct f; [right; left; split; reflexivity|left; reflexivity].
  - rewrite append_cons. cbn [translate_newlines].
    destruct (Ascii.eqb c LF) eqn:Hlf; [|destruct (Ascii.eqb c CR) eqn:Hcr].
    + destruct (IH false) as [H|[[H _]|(a' & Ha & H)]]; [|discriminate H|].
      * left. rewrite H. destruct f; reflexivity.
      * right. right. rewrite H, Ha.
        destruct f; [exists a'|exists (String LF a')]; split; reflexivity.
    + destruct (IH true) as [H|[[_ ->]|(a' & Ha & H)]].
      * left. rewrite H. reflexivity.
      * right. right. exists EmptyString. split; reflexivity.
      * right. right. rewrite H, Ha. exists (String LF a'). split; reflexivity.
    + destruct (IH false) as [H|[[H _]|(a' & Ha & H)]]; [|discriminate H|].
      * left. rewrite H. reflexivity.
      * right. right. rewrite H, Ha. exists (String c a'). split; reflexivity.
Qed.

Lemma readlines_nil s : readlines s = [] -> s = EmptyString.
Proof.
  destruct s as [|c s]; [reflexivity|]. cbn [readlines].
  destruct (Ascii.eqb c LF); [discriminate|].
  destruct (readlines s); discriminate.
Qed.

Lemma readlines_join x y :
  readlines (x +:+ String LF y)
    = readlines (x +:+ String LF EmptyString) ++ readlines y.
Proof.
  induction x as [|c x IH]; [reflexivity|].
  rewrite !append_cons. cbn [readlines].
  destruct (Ascii.eqb c LF); [rewrite IH; reflexivity|].
  rewrite IH.
  destruct (readlines (x +:+ String LF EmptyString)) as [|l ls] eqn:Hl; [|reflexivity].
  apply readlines_nil in Hl. destruct x; discriminate Hl.
Qed.

Lemma readlines_newline x :
  readlines (x +:+ String LF EmptyString) = readlines x ++ [String LF EmptyString] \/
  exists ls l, readlines x = ls ++ [l] /\
               readlines (x +:+ String LF EmptyString)
                 = ls ++ [l +:+ String LF EmptyString].
Proof.
  induction x as [|c x IH]; [left; reflexivity|].
  rewrite append_cons. cbn [readlines].
  destruct (Ascii.eqb c LF).
  - destruct IH as [H|(ls & l & Hx & H)].
    + left. rewrite H. reflexivity.
    + right. exists (String LF EmptyString :: ls), l. rewrite Hx, H. split; reflexivity.
  - destruct IH as [H|(ls & l & Hx & H)].
    + rewrite H. destruct (readlines x) as [|l0 ls0].
      * right. exists [], (String c EmptyString). split; reflexivity.
      * left. reflexivity.
    + right. rewrite H, Hx. destruct ls as [|l0 ls0].
      * exists [], (String c l). split; reflexivity.
      * exists (String c l0 :: ls0), l. split; reflexivity.
Qed.

(** A newline at the end of the text adds no URL. *)
Lemma urls_of_lines_newline x :
  filter (fun stripped => is_empty stripped = false /\ startswith stripped "#" = false)
         (map strip (readlines (x +:+ String LF EmptyString)))
  = filter (fun stripped => is_empty stripped = false /\ startswith stripped "#" = false)
           (map strip (readlines x)).
Proof.
  destruct (readlines_newline x) as [H|(ls & l & Hx & H)]; rewrite H.
  - rewrite map_app, filter_app. cbn [map].
    change (strip (String LF EmptyString)) with EmptyString.
    rewrite filter_cons_False by (intros [H0 _]; discriminate H0).
    rewrite filter_nil. apply app_nil_r.
  - rewrite Hx, !map_app. cbn [map]. rewrite strip_snoc by reflexivity. reflexivity.
Qed.

Lemma urls_of_text_join a b :
  urls_of_text (a +:+ String LF b) = urls_of_text a ++ urls_of_text b.
Proof.
  unfold urls_of_text.
  destruct (translate_newlines_join false a b) as [H|[[H _]|(a' & Ha & H)]];
    [|discriminate H|]; rewrite H.
  - rewrite readlines_join, map_app, filter_app, urls_of_lines_newline. reflexivity.
  - rewrite Ha, append_assoc. change (String LF EmptyString +:+ translate_newlines false b)
      with (String LF (translate_newlines false b)).
    rewrite readlines_join, map_app, filter_app. reflexivity.
Qed.

Lemma read_input_urls_file p w content :
  files w !! p = Some content ->
  (read_input_urls p w).2 = Ok (urls_of_text content).
Proof.
  intros Hfile. unfold read_input_urls, is_file.
  rewrite bool_decide_eq_true_2 by (rewrite Hfile; eauto).
  rewrite Hfile. reflexivity.
Qed.

(** Without the input file [read_input_urls] logs the error and raises
    [FileNotFoundError]. Of an ASCII file it returns the lines that hold
    a URL: none is empty, none starts with [#], none keeps white space
    around it; the warning is logged exactly when there is none. *)
Theorem read_input_urls_result (p : path) (w : world) :
  (files w !! p = None ->
   read_input_urls p w =
     ([ERROR_input_missing p], Raise (OtherException "FileNotFoundError"))) /\
  (forall content, files w !! p = Some content -> ascii_text content ->
   exists urls,
     (read_input_urls p w).2 = Ok urls /\
     (forall u, u ∈ urls ->
        u <> EmptyString /\ startswith u "#" = false /\ strip u = u) /\
     ((read_input_urls p w).1 = [WARNING_no_urls p] <-> urls = []) /\
     ((read_input_urls p w).1 = [] <-> urls <> [])).
Proof.
  split.
  - intros Hfile. unfold read_input_urls, is_file.
    rewrite bool_decide_eq_false_2; [reflexivity|].
    rewrite Hfile. intros [? H]. discriminate H.
  - intros content Hfile _. exists (urls_of_text content).
    split; [apply read_input_urls_file, Hfile|]. split.
    + intros u Hu. unfold urls_of_text in Hu.
      apply list_elem_of_filter in Hu as [[Hne Hhash] Hu].
      apply list_elem_of_fmap in Hu as (l & -> & _).
      split; [|split].
      * intros H. rewrite H in Hne. discriminate Hne.
      * exact Hhash.
      * apply strip_idempotent.
    + unfold read_input_urls, is_file.
      rewrite bool_decide_eq_true_2 by (rewrite Hfile; eauto).
      rewrite Hfile. cbn [negb fst default]. cbv zeta.
      destruct (decide (urls_of_text content = [])) as [Hnil|Hnil].
      * rewrite bool_decide_eq_true_2 by exact Hnil. cbn [fst].
        split; split; intros H; [exact Hnil|reflexivity|discriminate H|contradiction].
      * rewrite bool_decide_eq_false_2 by exact Hnil. cbn [fst].
        split; split; intros H; [discriminate H|contradiction|exact Hnil|reflexivity].
Qed.

(** The URLs of two ASCII files joined by a newline are the URLs of the
    first followed by the URLs of the second. *)
Theorem input_files_concatenate (pa pb p : path) (w : world) (a b : string) :
  files w !! pa = Some a -> files w !! pb = Some b ->
  files w !! p = Some (a +:+ String LF b) ->
  ascii_text a -> ascii_text b ->
  exists ua ub,
    (read_input_urls pa w).2 = Ok ua /\
    (read_input_urls pb w).2 = Ok ub /\
    (read_input_urls p w).2 = Ok (ua ++ ub).
Proof.
  intros Ha Hb Hp _ _. exists (urls_of_text a), (urls_of_text b).
  rewrite (read_input_urls_file _ _ _ Ha), (read_input_urls_file _ _ _ Hb),
    (read_input_urls_file _ _ _ Hp), urls_of_text_join.
  repeat split.
Qed.

End InputFacts.

Section ConfigFacts.
Import PyStr exporters runner.
Context `{L : Loader}.
Variable numeric_level : string -> result Z.

Lemma load_settings_cases settings_path root_dir w :
  load_settings settings_path root_dir w =
    let f := settings_file settings_path root_dir in
    match files w !! f with
    | None => ([INFO_settings_not_found f], Ok DEFAULT_CONFIG)
    | Some content =>
        match json_load content with
        | Ok (LDict file_config) => ([], Ok (file_config ∪ DEFAULT_CONFIG))
        | Ok LOther => ([], Ok DEFAULT_CONFIG)
        | Raise exc =>
            if is_Exception exc then ([WARNING_settings_failed f exc], Ok DEFAULT_CONFIG)
            else ([], Raise exc)
        end
    end.
Proof.
  unfold load_settings, settings_file. cbv zeta.
  assert (Hdefault :
    joinpath (joinpath (joinpath root_dir ["src"]) ["config"]) ["settings.example.json"]
    = root_dir ++ ["src"; "config"; "settings.example.json"]).
  { unfold joinpath. cbn [is_absolute String.eqb Ascii.eqb Bool.eqb].
    rewrite <- !app_assoc. reflexivity. }
  set (p := match settings_path with Some p => p | None => _ end).
  assert (Hp : p = default (root_dir ++ ["src"; "config"; "settings.example.json"])
                     settings_path).
  { subst p. destruct settings_path; [reflexivity|exact Hdefault]. }
  rewrite <- Hp.
  assert (Hf : (if negb (is_absolute p) then joinpath root_dir p else p)
               = (if is_absolute p then p else root_dir ++ p)).
  { unfold joinpath. destruct (is_absolute p); reflexivity. }
  rewrite Hf. set (f := if is_absolute p then p else root_dir ++ p).
  unfold is_file. destruct (files w !! f) as [content|] eqn:Hfile.
  - rewrite bool_decide_eq_true_2 by eauto. reflexivity.
  - rewrite bool_decide_eq_false_2 by (intros [? H]; discriminate H). reflexivity.
Qed.

(** The settings [load_settings] returns are the defaults under the
    [dict] of the settings file, when there is one. *)
Lemma load_settings_Ok settings_path root_dir w lg config :
  load_settings settings_path root_dir w = (lg, Ok config) ->
  exists d, config = d ∪ DEFAULT_CONFIG /\
    (d = ∅ \/
     exists content, files w !! settings_file settings_path root_dir = Some content /\
                     json_load content = Ok (LDict d)).
Proof.
  rewrite load_settings_cases. cbv zeta.
  destruct (files w !! settings_file settings_path root_dir) as [content|] eqn:Hfile.
  - destruct (json_load content) as [[d|]|exc] eqn:Hload.
    + intros [= _ <-]. exists d. split; [reflexivity|]. right. eauto.
    + intros [= _ <-]. exists ∅. split; [symmetry; apply (left_id_L ∅ (∪))|left; reflexivity].
    + destruct (is_Exception exc); [|discriminate].
      intros [= _ <-]. exists ∅. split; [symmetry; apply (left_id_L ∅ (∪))|left; reflexivity].
  - intros [= _ <-]. exists ∅. split; [symmetry; apply (left_id_L ∅ (∪))|left; reflexivity].
Qed.






Lemma setup_logger_once lvl1 lvl2 logger logger1 :
  setup_logger numeric_level lvl1 logger = Ok logger1 ->
  setup_logger numeric_level lvl2 logger1 = Ok logger1.
Proof.
  unfold setup_logger. destruct (0 <? handlers logger)%nat eqn:Hh.
  - intros [= <-]. rewrite Hh. reflexivity.
  - destruct lvl1; try discriminate.
    destruct (numeric_level (upper s)); [|discriminate].
    intros [= <-]. cbn [handlers].
    replace (0 <? handlers logger + 1)%nat with true; [reflexivity|].
    symmetry. apply Nat.ltb_lt. lia.
Qed.

(** What [main_config] has computed when it returns. *)
Lemma main_config_inv args root_dir logger w lg rc :
  main_config numeric_level args root_dir logger w = (lg, Ok rc) ->
  exists d input_path output_path,
    (d = ∅ \/
     exists content,
       files w !! settings_file (Path <$> given (settings args)) root_dir = Some content /\
       json_load content = Ok (LDict d)) /\
    setup_logger numeric_level (PStr "INFO") logger = Ok (run_logger rc) /\
    apply_cli_overrides (d ∪ DEFAULT_CONFIG) args !! "input_file" = Some input_path /\
    resolve_path input_path root_dir = Ok (run_input_file rc) /\
    apply_cli_overrides (d ∪ DEFAULT_CONFIG) args !! "output_file" = Some output_path /\
    resolve_path output_path root_dir = Ok (run_output_file rc) /\
    run_output_format rc =
      (let inferred :=
         let ext := lstrip_dot (path_suffix (run_output_file rc)) in
         PStr (if is_empty ext then "json" else ext) in
       match apply_cli_overrides (d ∪ DEFAULT_CONFIG) args !! "output_format" with
       | Some v => if truthy v then v else inferred
       | None => inferred
       end) /\
    run_max_items rc =
      default PNone (apply_cli_overrides (d ∪ DEFAULT_CONFIG) args !! "max_items").
Proof.
  unfold main_config.
  change (default PNone (DEFAULT_CONFIG !! "log_level")) with (PStr "INFO").
  destruct (setup_logger numeric_level (PStr "INFO") logger) as [temp|e] eqn:Htemp;
    [|discriminate].
  destruct (load_settings _ root_dir w) as [lg0 [config|e]] eqn:Hload; [|discriminate].
  apply load_settings_Ok in Hload as (d & -> & Hd).
  set (config := apply_cli_overrides (d ∪ DEFAULT_CONFIG) args).
  intros [= _ Hrc]. revert Hrc.
  rewrite (setup_logger_once _ _ _ _ Htemp). cbn [mbind result_bind].
  unfold getitem.
  destruct (config !! "input_file") as [ip|] eqn:Hip; [|discriminate]. cbn [mbind result_bind].
  destruct (resolve_path ip root_dir) as [ifile|e] eqn:Hifile; [|discriminate].
  cbn [mbind result_bind].
  destruct (config !! "output_file") as [op|] eqn:Hop; [|discriminate]. cbn [mbind result_bind].
  destruct (resolve_path op root_dir) as [ofile|e] eqn:Hofile; [|discriminate].
  cbn [mbind result_bind]. intros [= <-]. cbn [run_logger run_input_file run_output_file
    run_output_format run_max_items].
  exists d, ip, op. repeat split; try assumption; try reflexivity.
Qed.



(** The logger of the run is the one the first [setup_logger] of [main]
    leaves: a logger without handler gets the level of [INFO] and one
    handler, whatever [log_level] the settings file gives. *)
Theorem log_level_is_never_applied (args : Namespace) (root_dir : path)
    (logger : logger_state) (w : world) (lg : list runner_log) (rc : run_config) :
  main_config numeric_level args root_dir logger w = (lg, Ok rc) ->
  setup_logger numeric_level (PStr "INFO") logger = Ok (run_logger rc) /\
  (handlers logger = 0%nat ->
   numeric_level "INFO" = Ok (level (run_logger rc)) /\ handlers (run_logger rc) = 1%nat).
Proof.
  intros Hrun.
  destruct (main_config_inv _ _ _ _ _ _ Hrun) as (d & ip & op & _ & Hlogger & _).
  split; [exact Hlogger|]. intros Hfresh.
  unfold setup_logger in Hlogger. rewrite Hfresh in Hlogger.
  change (0 <? 0)%nat with false in Hlogger.
  change (upper "INFO") with "INFO" in Hlogger.
  destruct (numeric_level "INFO") as [n|e]; [|discriminate Hlogger].
  injection Hlogger as <-. split; reflexivity.
Qed.

End ConfigFacts.

Section RunnerExamples.
Import PyStr exporters runner.

(** [input_example] holds a comment, a URL between blanks, an empty line
    and a last line without newline. *)
Lemma read_input_urls_result_witness :
  read_input_urls ["missing.txt"] (world_with ["urls.txt"] input_example)
    = ([ERROR_input_missing ["missing.txt"]], Raise (OtherException "FileNotFoundError")) /\
  exists urls,
    (read_input_urls ["urls.txt"] (world_with ["urls.txt"] input_example)).2 = Ok urls /\
    urls = ["https://www.facebook.com/zuck"; "alice"] /\
    (forall u, u ∈ urls -> u <> EmptyString /\ startswith u "#" = false /\ strip u = u) /\
    (read_input_urls ["urls.txt"] (world_with ["urls.txt"] input_example)).1 = [].
Proof.
  split.
  - exact (proj1 (read_input_urls_result ["missing.txt"]
                    (world_with ["urls.txt"] input_example)) eq_refl).
  - destruct (proj2 (read_input_urls_result ["urls.txt"]
                       (world_with ["urls.txt"] input_example))
                input_example eq_refl eq_refl)
      as (urls & Hurls & Hclean & _ & Hlog).
    exists urls. split; [exact Hurls|].
    assert (Heq : urls = ["https://www.facebook.com/zuck"; "alice"]).
    { vm_compute in Hurls. injection Hurls as <-. reflexivity. }
    split; [exact Heq|]. split; [exact Hclean|].
    apply Hlog. rewrite Heq. discriminate.
Defined.

Lemma input_files_concatenate_witness :
  exists ua ub,
    (read_input_urls ["a.txt"] three_files).2 = Ok ua /\
    (read_input_urls ["b.txt"] three_files).2 = Ok ub /\
    (read_input_urls ["all.txt"] three_files).2 = Ok (ua ++ ub).
Proof.
  exact (input_files_concatenate ["a.txt"] ["b.txt"] ["all.txt"] three_files
           ("alice" +:+ CRLF +:+ "# friends") " bob"
           eq_refl eq_refl eq_refl eq_refl eq_refl).
Defined.



(** The settings file asks for [DEBUG]; the logger stays at [INFO]. *)
Lemma log_level_is_never_applied_witness :
  numeric_level_example "INFO" = Ok (level (run_logger run_with_settings)) /\
  handlers (run_logger run_with_settings) = 1%nat.
Proof.
  exact (proj2 (@log_level_is_never_applied loader_example numeric_level_example
                  args_example root_example fresh_logger settings_world []
                  run_with_settings eq_refl) eq_refl).
Defined.

End RunnerExamples.

(** ** From the scraper to the exporters *)

Section PipelineFacts.
Import PyStr facebook_parser exporters.
Context `{E : Env} `{S : Serializer}.
Variable value_of : field_value -> pyvalue.

Lemma scrape_records_to_dict urls remaining dicts :
  scrape_records urls remaining = Ok dicts ->
  forall d, d ∈ dicts -> exists p, d = to_dict p.
Proof.
  revert remaining dicts.
  induction urls as [|u urls IH]; intros remaining dicts.
  - intros [= <-] d Hd. inversion Hd.
  - rewrite scrape_records_cons.
    destruct (exhausted remaining); [intros [= <-] d Hd; inversion Hd|].
    destruct (fetch (_normalize_profile_url u)) as [doc|exc].
    + cbv zeta.
      destruct (scrape_records urls _) as [rest|e] eqn:Hrest; [|discriminate].
      cbn [mbind result_bind]. intros [= <-] d [Hd|Hd]%elem_of_app.
      * apply list_elem_of_fmap in Hd as (p & -> & _). eauto.
      * exact (IH _ _ Hrest d Hd).
    + destruct (is_Exception exc); [|discriminate]. apply IH.
Qed.

Lemma dom_as_record p :
  dom (as_record value_of (to_dict p)) = list_to_set scraped_columns.
Proof.
  unfold as_record. rewrite dom_list_to_map_L. unfold to_dict. cbn [fmap list_fmap fst prod_map].
  apply set_eq. intros k. unfold scraped_columns.
  rewrite !elem_of_list_to_set, !elem_of_cons. tauto.
Qed.

Lemma union_of_equal_doms (records : list record) (X : gset string) :
  records <> [] -> (forall r, r ∈ records -> dom r = X) -> ⋃ (map dom records) = X.
Proof.
  induction records as [|r rest IH]; [contradiction|]. intros _ Hdom.
  cbn [map union_list foldr]. rewrite (Hdom r) by left.
  destruct rest as [|r' rest'].
  - cbn [map union_list foldr]. apply (right_id_L ∅ (∪)).
  - rewrite IH; [apply (idemp_L (∪))|discriminate|].
    intros r0 Hr0. apply Hdom. right. exact Hr0.
Qed.

(** The CSV of scraped profiles has the seven fields of a profile as
    columns, in alphabetical order, and one row per profile, in the order
    [scrape] returned them. *)
Theorem scraped_csv_columns (urls : list string) (max_items : option Z)
    (dicts : list (list (string * field_value))) (output_path : string)
    (output_format : option string) (w : world) :
  (scrape urls max_items).2 = Ok dicts -> dicts <> [] ->
  requested_format output_path output_format = "csv" ->
  exists w',
    export_data (as_record value_of <$> dicts) output_path output_format w = (Ok tt, w') /\
    files w' !! Path output_path =
      Some ("id,image,profile_details,subtitle_text,title,url,username" +:+ CRLF
            +:+ concat_lines
                  (map (fun d => row_text (csv_cells scraped_columns (as_record value_of d)))
                       dicts)).
Proof.
  intros Hscrape Hne Hfmt. rewrite scrape_records_eq in Hscrape.
  set (records := as_record value_of <$> dicts).
  assert (Hrecords : records <> []).
  { subst records. destruct dicts; [contradiction|discriminate]. }
  assert (Hheader : csv_header records = scraped_columns).
  { unfold csv_header. rewrite (union_of_equal_doms records (list_to_set scraped_columns)).
    - vm_compute. reflexivity.
    - exact Hrecords.
    - intros r Hr. subst records. apply list_elem_of_fmap in Hr as (d & -> & Hd).
      destruct (scrape_records_to_dict _ _ _ Hscrape d Hd) as (p & ->).
      apply dom_as_record. }
  rewrite (export_data_csv _ _ _ _ Hfmt). cbv zeta.
  set (p := Path output_path).
  destruct (export_csv_file records p
              (_ensure_parent_dir p (log (DEBUG_exporting (length records) p "csv") w).2).2
              Hrecords) as (w3 & Hrun & Hfile).
  rewrite Hrun. eexists. split; [reflexivity|].
  cbn [files log snd]. rewrite Hfile. unfold csv_text. rewrite Hheader.
  subst records. rewrite map_map. reflexivity.
Qed.

End PipelineFacts.

Section PipelineExamples.
Import PyStr facebook_parser exporters.

(** The two profiles of [doc_example], scraped and written to [out.csv]. *)
Lemma scraped_csv_columns_witness :
  exists w',
    @export_data json_of_nothing
      (as_record value_example <$>
         map to_dict (@scrape_soup E_example doc_example (Some 2)))
      "out.csv" None empty_world = (Ok tt, w') /\
    files w' !! ["out.csv"] =
      Some ("id,image,profile_details,subtitle_text,title,url,username" +:+ CRLF
            +:+ "UncutMagazine,,,,Uncut Magazine,https://www.facebook.com/UncutMagazine,UncutMagazine"
            +:+ CRLF
            +:+ "example.profile,,,,Example Profile,https://www.facebook.com/example.profile,example.profile"
            +:+ CRLF).
Proof.
  destruct (@scraped_csv_columns E_example json_of_nothing value_example
              ["https://www.facebook.com/first"] (Some 2)
              (map to_dict (@scrape_soup E_example doc_example (Some 2)))
              "out.csv" None empty_world eq_refl ltac:(discriminate) eq_refl)
    as (w' & Hrun & Hfile).
  exists w'. split; [exact Hrun|exact Hfile].
Defined.

End PipelineExamples.
